(** * The shop ("coffee") routes of the review server

    A shallow embedding of the express router that serves the shop records
    (list, get, delete, like, unlike, comment, delete comment), followed by
    the properties of the shop-record specification checked against it.

    The embedding has three layers:
    - [JS]: the fragment of the language semantics the handlers rely on:
      IEEE-754 binary64 numbers, [Number(v)], [x.toFixed(2)], truthiness,
      [indexOf], [splice], property lookup on an object literal;
    - the documents and the document store: every store call is recorded in
      a log and may be rejected, which is how a failing driver is modelled;
    - the handlers, written in a small state-and-exception monad so that
      they read like the [async] functions they embed. *)

From Stdlib Require Import ZArith List String Ascii Bool Lia.
From Stdlib Require Import SpecFloat DecimalString.
Import ListNotations.

Open Scope string_scope.
Open Scope list_scope.
Open Scope Z_scope.

(* ------------------------------------------------------------------ *)
(** * The language layer *)

Module JS.

(** A string is a sequence of code units; the model covers the code units
    below 256. *)

Definition chars (s : string) : list ascii := list_ascii_of_string s.

Definition code (c : ascii) : Z := Z.of_nat (nat_of_ascii c).

(** ** Numbers: IEEE-754 binary64 *)

Definition prec : Z := 53.
Definition emax : Z := 1024.

Definition num : Type := spec_float.

Definition NaN : num := S754_nan.
Definition zero : num := S754_zero false.

Definition add : num -> num -> num := SFadd prec emax.
Definition div : num -> num -> num := SFdiv prec emax.

(** The number nearest to the integer [z] (ties to even). *)
Definition of_Z (z : Z) : num := binary_normalize prec emax z 0 false.

(** The number nearest to [p / q], with the sign [neg]. *)
Definition of_rat (neg : bool) (p q : positive) : num :=
  let '(mz, ez, lz) := SFdiv_core_binary prec emax (Zpos p) 0 (Zpos q) 0 in
  binary_round_aux prec emax neg mz ez lz.

(** The number nearest to [m * 10^e]. *)
Definition of_dec (neg : bool) (m : Z) (e : Z) : num :=
  match m with
  | Zpos p =>
      match e with
      | Z0 => of_rat neg p 1
      | Zpos k => of_rat neg (p * Pos.pow 10 k) 1
      | Zneg k => of_rat neg p (Pos.pow 10 k)
      end
  | _ => S754_zero neg
  end.

Definition is_NaN (x : num) : bool :=
  match x with S754_nan => true | _ => false end.

(** ** [Number(string)]: the StringNumericLiteral grammar *)

Definition is_space (c : ascii) : bool :=
  let n := code c in
  ((9 <=? n) && (n <=? 13)) || (n =? 32) || (n =? 160).

Definition is_digit (c : ascii) : bool :=
  let n := code c in (48 <=? n) && (n <=? 57).

(** Value of a digit in a radix up to 16; [None] when [c] is no digit of
    that radix. *)
Definition digit_in (radix : Z) (c : ascii) : option Z :=
  let n := code c in
  let v :=
    if (48 <=? n) && (n <=? 57) then n - 48
    else if (97 <=? n) && (n <=? 102) then n - 87
    else if (65 <=? n) && (n <=? 70) then n - 55
    else 16 in
  if v <? radix then Some v else None.

Fixpoint drop_spaces (s : list ascii) : list ascii :=
  match s with
  | c :: s' => if is_space c then drop_spaces s' else s
  | [] => []
  end.

Definition trim (s : list ascii) : list ascii :=
  rev (drop_spaces (rev (drop_spaces s))).

(** The longest prefix of decimal digits, and what follows it. *)
Fixpoint span_digits (s : list ascii) : list ascii * list ascii :=
  match s with
  | c :: s' =>
      if is_digit c
      then let '(ds, r) := span_digits s' in (c :: ds, r)
      else ([], s)
  | [] => ([], [])
  end.

(** The integer written by the digits [s] in [radix], most significant
    first, continuing from [acc]; [None] when one of them is no digit. *)
Fixpoint digits_value (radix : Z) (acc : Z) (s : list ascii) : option Z :=
  match s with
  | [] => Some acc
  | c :: s' =>
      match digit_in radix c with
      | Some v => digits_value radix (acc * radix + v) s'
      | None => None
      end
  end.

(** ExponentPart, which is optional but must reach the end of the input. *)
Definition exponent_part (s : list ascii) : option Z :=
  match s with
  | [] => Some 0
  | c :: s' =>
      if (code c =? 101) || (code c =? 69) then
        let '(neg, ds) :=
          match s' with
          | "+"%char :: r => (false, r)
          | "-"%char :: r => (true, r)
          | _ => (false, s')
          end in
        match ds with
        | [] => None
        | _ => match digits_value 10 0 ds with
               | Some v => Some (if neg then - v else v)
               | None => None
               end
        end
      else None
  end.

(** StrUnsignedDecimalLiteral, with the sign already taken off. *)
Definition unsigned_decimal (neg : bool) (s : list ascii) : num :=
  if list_eq_dec ascii_dec s (chars "Infinity") then S754_infinity neg
  else
    let '(ip, r) := span_digits s in
    let '(fp, r') :=
      match r with
      | "."%char :: r1 => span_digits r1
      | _ => ([], r)
      end in
    match ip ++ fp with
    | [] => NaN
    | ds =>
        match digits_value 10 0 ds, exponent_part r' with
        | Some m, Some e => of_dec neg m (e - Z.of_nat (List.length fp))
        | _, _ => NaN
        end
    end.

(** NonDecimalIntegerLiteral: at least one digit of the radix, no sign. *)
Definition non_decimal (radix : Z) (s : list ascii) : num :=
  match s with
  | [] => NaN
  | _ => match digits_value radix 0 s with
         | Some m => of_Z m
         | None => NaN
         end
  end.

Definition StringToNumber (str : string) : num :=
  match trim (chars str) with
  | [] => zero
  | "0"%char :: c :: r =>
      let n := code c in
      if (n =? 120) || (n =? 88) then non_decimal 16 r
      else if (n =? 111) || (n =? 79) then non_decimal 8 r
      else if (n =? 98) || (n =? 66) then non_decimal 2 r
      else unsigned_decimal false ("0"%char :: c :: r)
  | "+"%char :: r => unsigned_decimal false r
  | "-"%char :: r => unsigned_decimal true r
  | s => unsigned_decimal false s
  end.

(** ** [x.toFixed(2)] *)

Definition string_of_Z (z : Z) : string :=
  NilZero.string_of_uint (N.to_uint (Z.to_N z)).

Definition ndigits (z : Z) : Z := Z.of_nat (String.length (string_of_Z z)).

(** [floor (p / q + 1/2)]: the integer nearest to [p / q], the larger one
    when two are as near. *)
Definition round_half_up (p q : Z) : Z := (2 * p + q) / (2 * q).

(** The integer [n] for which [n / 100 - m * 2^e] is as close to zero as
    possible, the larger one if there are two. *)
Definition scaled100 (m : positive) (e : Z) : Z :=
  match e with
  | Zneg k => round_half_up (100 * Zpos m) (Zpos (Pos.pow 2 k))
  | _ => 100 * Zpos m * 2 ^ e
  end.

(** Digits of [n] with the decimal point before the last two, padded with
    zeros to at least three digits. *)
Definition fixed2_digits (n : Z) : string :=
  let m := string_of_Z n in
  let k := String.length m in
  let m := match k with
           | 0%nat => "000" | 1%nat => "00" ++ m | 2%nat => "0" ++ m | _ => m
           end%string in
  let k := String.length m in
  (substring 0 (k - 2) m ++ "." ++ substring (k - 2) 2 m)%string.

(** Number::toString for a number at least [10^21], whose integer value
    is [X], with [D] digits: the shortest digit string [s] and the
    exponent [n] with [s * 10^(n-k)] rounding to [x], the nearest to [x]
    among those of that length. The candidates with [k] digits are the
    two multiples of [10^(D-k)] around [X]. *)
Fixpoint shortest_digits (fuel : nat) (k : Z) (x : num) (X D : Z) : Z * Z :=
  match fuel with
  | O => (X, D)
  | S fuel' =>
      let p := 10 ^ (D - k) in
      let lo := X / p in
      let hi := lo + 1 in
      let ok_lo := SFeqb (of_Z (lo * p)) x in
      let ok_hi := SFeqb (of_Z (hi * p)) x
                   && ((hi <? 10 ^ k) || (k =? 1)) in
      let pick_hi := if hi <? 10 ^ k then (hi, D) else (1, D + 1) in
      if ok_lo && ok_hi then
        match (X - lo * p) ?= (hi * p - X) with
        | Lt => (lo, D)
        | Gt => pick_hi
        | Eq => if Z.even lo then (lo, D) else pick_hi
        end
      else if ok_lo then (lo, D)
      else if ok_hi then pick_hi
      else shortest_digits fuel' (k + 1) x X D
  end.

Definition exponential (s n : Z) : string :=
  let ds := string_of_Z s in
  let e := string_of_Z (n - 1) in
  match ds with
  | String d EmptyString => String d ("e+" ++ e)
  | String d r => String d ("." ++ r ++ "e+" ++ e)
  | EmptyString => ds
  end%string.

Definition toString_large (m : positive) (e : Z) : string :=
  let X := Z.shiftl (Zpos m) e in
  let D := ndigits X in
  let '(s, n) :=
    shortest_digits (Z.to_nat D) 1 (S754_finite false m e) X D in
  exponential s n.

(** [m * 2^e >= 10^21] *)
Definition at_least_1e21 (m : positive) (e : Z) : bool :=
  match e with
  | Zneg k => 10 ^ 21 * Zpos (Pos.pow 2 k) <=? Zpos m
  | _ => 10 ^ 21 <=? Zpos m * 2 ^ e
  end.

Definition toFixed2 (x : num) : string :=
  match x with
  | S754_nan => "NaN"
  | S754_infinity s => if s then "-Infinity" else "Infinity"
  | S754_zero _ => "0.00"
  | S754_finite s m e =>
      ((if s then "-" else "") ++
       (if at_least_1e21 m e then toString_large m e
        else fixed2_digits (scaled100 m e)))%string
  end.

(** ** Values *)

(** The values the handlers meet: primitives, and [inherited k] for the
    member [k] that an object literal inherits from [Object.prototype]. *)
Inductive value : Type :=
  | undefined
  | null
  | boolean (b : bool)
  | number (x : num)
  | str (s : string)
  | inherited (k : string).

(** [Number(v)] *)
Definition Number (v : value) : num :=
  match v with
  | undefined => NaN
  | null => zero
  | boolean b => if b then of_Z 1 else zero
  | number x => x
  | str s => StringToNumber s
  | inherited _ => NaN
  end.

(** [a / b] *)
Definition divide (a b : value) : num := div (Number a) (Number b).

(** [a.length] of an array, as a number *)
Definition length {A} (a : list A) : num := of_Z (Z.of_nat (List.length a)).

(** [a.reduce(f, init)] *)
Definition reduce {A B} (f : B -> A -> B) (init : B) (a : list A) : B :=
  fold_left f a init.

(** [a.indexOf(x)] on an array of strings *)
Fixpoint indexOf (a : list string) (x : string) : Z :=
  match a with
  | [] => -1
  | y :: a' =>
      if String.eqb y x then 0
      else let i := indexOf a' x in if i <? 0 then -1 else i + 1
  end.

(** [a.splice(start, 1)]: the array once the call has returned *)
Definition splice1 {A} (a : list A) (start : Z) : list A :=
  let len := Z.of_nat (List.length a) in
  let from := if start <? 0 then Z.max (len + start) 0 else Z.min start len in
  firstn (Z.to_nat from) a ++ skipn (S (Z.to_nat from)) a.

(** [a.unshift(x)]: the array once the call has returned *)
Definition unshift {A} (a : list A) (x : A) : list A := x :: a.

(** The property names every object literal inherits. *)
Definition Object_prototype : list string :=
  [ "constructor"; "__proto__"; "hasOwnProperty"; "isPrototypeOf";
    "propertyIsEnumerable"; "toLocaleString"; "toString"; "valueOf";
    "__defineGetter__"; "__defineSetter__"; "__lookupGetter__";
    "__lookupSetter__" ].

Definition mem (k : string) (l : list string) : bool :=
  existsb (String.eqb k) l.

Fixpoint own (o : list (string * value)) (k : string) : option value :=
  match o with
  | [] => None
  | (k', v) :: o' => if String.eqb k' k then Some v else own o' k
  end.

(** [o[k]] on an object literal [o]; the key [undefined] reads the
    property named "undefined". *)
Definition get (o : list (string * value)) (k : option string) : value :=
  let k := match k with Some k => k | None => "undefined" end in
  match own o k with
  | Some v => v
  | None => if mem k Object_prototype then inherited k else undefined
  end.

(** [s.match(/^[0-9a-fA-F]{24}$/)] is not null *)
Definition matches_hex24 (s : string) : bool :=
  (List.length (chars s) =? 24)%nat
  && forallb (fun c => match digit_in 16 c with Some _ => true | None => false end)
             (chars s).

Arguments toFixed2 : simpl never.
Arguments div : simpl never.
Arguments add : simpl never.
Arguments of_Z : simpl never.
Arguments StringToNumber : simpl never.
Arguments matches_hex24 : simpl never.

End JS.

(* ------------------------------------------------------------------ *)
(** * Documents

    The schema of the two models is not part of the sources. The fields
    are those the routes and the client read and write; a document is the
    object the handler holds, and an assignment to a field stores the value
    as it is. Identifiers are kept in their string form, which is what
    [toString()] and the [id] getter give. *)

Module Like.
Record t : Type := mk { user : string }.
End Like.

Module Comment.
Record t : Type := mk
  { id : string;
    user : string;
    text : JS.value;
    review : JS.value;
    name : string;
    avatar : string }.
End Comment.

Module User.
Record t : Type := mk { _id : string; name : string; avatar : string }.
End User.

Module Coffee.
Record t : Type := mk
  { _id : string;
    user : string;
    text : JS.value;
    name : JS.value;
    address : JS.value;
    suburb : JS.value;
    avatar : string;
    likes : list Like.t;
    comments : option (list Comment.t);
    averageReview : JS.value;
    totalReview : JS.value }.

Definition set_likes (c : t) (l : list Like.t) : t :=
  mk (_id c) (user c) (text c) (name c) (address c) (suburb c) (avatar c)
     l (comments c) (averageReview c) (totalReview c).

Definition set_comments (c : t) (l : list Comment.t) : t :=
  mk (_id c) (user c) (text c) (name c) (address c) (suburb c) (avatar c)
     (likes c) (Some l) (averageReview c) (totalReview c).

Definition set_averageReview (c : t) (v : JS.value) : t :=
  mk (_id c) (user c) (text c) (name c) (address c) (suburb c) (avatar c)
     (likes c) (comments c) v (totalReview c).

Definition set_totalReview (c : t) (v : JS.value) : t :=
  mk (_id c) (user c) (text c) (name c) (address c) (suburb c) (avatar c)
     (likes c) (comments c) (averageReview c) v.
End Coffee.

(* ------------------------------------------------------------------ *)
(** * The document store and the handler monad *)

(** What a handler sends back. *)
Inductive Body : Type :=
  | Msg (msg : string)                     (* json({ msg }) *)
  | Send (text : string)                   (* send(text) *)
  | Errors (params : list string)          (* json({ errors }) *)
  | Doc (c : Coffee.t)
  | Docs (l : list Coffee.t)
  | Likes (l : list Like.t)
  | Comments (l : list Comment.t).

Record Response : Type := json { status : Z; body : Body }.

(** The calls a handler makes to the store. *)
Inductive Call : Type :=
  | FindCoffee (id : string)
  | FindUser (id : string)
  | FindSorted (label value : JS.value)
  | Save (id : string)
  | Remove (id : string).

(** The world a handler runs in: the two collections, the calls made to
    the store so far (oldest first), the answers of the driver to the calls
    to come ([true]: the call is rejected, as on a lost connection or on an
    identifier the driver cannot cast; none left: accepted) and the counter
    the identifiers of new subdocuments are drawn from. *)
Record World : Type := mkWorld
  { coffees : list Coffee.t;
    users : list User.t;
    log : list Call;
    faults : list bool;
    oid : nat }.

Inductive Outcome (A : Type) : Type :=
  | Val (a : A)               (* ran to its end *)
  | Thrown                    (* an exception is propagating *)
  | Returned (r : Response).  (* [return res...] *)
Arguments Val {A} a.
Arguments Thrown {A}.
Arguments Returned {A} r.

Definition M (A : Type) : Type := World -> Outcome A * World.

Definition ret {A} (a : A) : M A := fun w => (Val a, w).

Definition bind {A B} (m : M A) (k : A -> M B) : M B :=
  fun w =>
    match m w with
    | (Val a, w') => k a w'
    | (Thrown, w') => (Thrown, w')
    | (Returned r, w') => (Returned r, w')
    end.

Notation "x <- m ;; k" := (bind m (fun x => k))
  (at level 61, m at next level, right associativity).
Notation "m ;;; k" := (bind m (fun _ => k))
  (at level 61, right associativity).

Definition throw {A} : M A := fun w => (Thrown, w).

(** [return res.status(s).json(b)], and [res.json(b)] as the last
    statement of a handler. *)
Definition respond {A} (s : Z) (b : Body) : M A :=
  fun w => (Returned (json s b), w).

(** [o.f] where [o] may be [null]: a TypeError when it is. *)
Definition deref {A} (o : option A) : M A :=
  match o with Some a => ret a | None => throw end.

(** [!o] where [o] is a document or [null] *)
Definition isNull {A} (o : option A) : bool :=
  match o with Some _ => false | None => true end.

(** [a ? _ : _] where [a] is an array (any array is truthy, the empty one
    too) or [undefined] *)
Definition truthy {A} (a : option (list A)) : bool :=
  match a with Some _ => true | None => false end.

Definition ServerError : Response := json 500 (Send "Server Error").

(** [try { body } catch (err) { res.status(500).send('Server Error') }] *)
Definition try_catch (body : M Response) (w : World) : Response * World :=
  match body w with
  | (Val r, w') => (r, w')
  | (Returned r, w') => (r, w')
  | (Thrown, w') => (ServerError, w')
  end.

(** The driver rejects the next call. *)
Definition rejects (w : World) : bool :=
  match faults w with true :: _ => true | _ => false end.

(** The world once the call [c] has reached the store. *)
Definition called (c : Call) (w : World) : World :=
  mkWorld (coffees w) (users w) (log w ++ [c]) (tl (faults w)) (oid w).

(** [await] of a store call: the call is logged, the driver's answer is
    consumed, and the operation runs unless the call is rejected. *)
Definition await {A} (c : Call) (op : World -> A * World) : M A :=
  fun w =>
    if rejects w then (Thrown, called c w)
    else let '(a, w') := op (called c w) in (Val a, w').

(** The driver accepts the next [n] calls. *)
Definition accepted (n : nat) (w : World) : bool :=
  forallb negb (firstn n (faults w)).

Definition set_coffees (w : World) (l : list Coffee.t) : World :=
  mkWorld l (users w) (log w) (faults w) (oid w).

Definition lookup (id : string) (l : list Coffee.t) : option Coffee.t :=
  find (fun c => String.eqb (Coffee._id c) id) l.

(** [Coffee.findById(id)] *)
Definition Coffee_findById (id : string) : M (option Coffee.t) :=
  await (FindCoffee id) (fun w => (lookup id (coffees w), w)).

(** [User.findById(id).select('-password')] *)
Definition User_findById (id : string) : M (option User.t) :=
  await (FindUser id)
        (fun w => (find (fun u => String.eqb (User._id u) id) (users w), w)).

(** [doc.save()]: the stored document of that [_id] is replaced. *)
Definition save (doc : Coffee.t) : M unit :=
  await (Save (Coffee._id doc))
        (fun w =>
           (tt, set_coffees w
                  (map (fun d => if String.eqb (Coffee._id d) (Coffee._id doc)
                                 then doc else d)
                       (coffees w)))).

(** [doc.remove()] *)
Definition remove (doc : Coffee.t) : M unit :=
  await (Remove (Coffee._id doc))
        (fun w =>
           (tt, set_coffees w
                  (filter (fun d => negb (String.eqb (Coffee._id d)
                                                     (Coffee._id doc)))
                          (coffees w)))).

(** Modelled from the spec: the identifier of a new comment, which the
    schema of the Coffee model assigns when the comment enters the array
    ("assigns a fresh unique id"); here the 24 hexadecimal digits of a
    counter. *)
Fixpoint hex (n : nat) (z : Z) (acc : string) : string :=
  match n with
  | O => acc
  | S n' =>
      let d := z mod 16 in
      let c := ascii_of_nat (Z.to_nat (if d <? 10 then d + 48 else d + 87)) in
      hex n' (z / 16) (String c acc)
  end.

Arguments hex : simpl never.

Definition ObjectId : M string :=
  fun w =>
    (Val (hex 24 (Z.of_nat (oid w)) ""),
     mkWorld (coffees w) (users w) (log w) (faults w) (S (oid w))).

(** [doc.save()] of a new document: the call is logged like any save, and
    the document enters the collection, unless the driver rejects the call
    or the collection already holds a document of that [_id], which the
    unique index of the store refuses. The promise resolves to the
    document. *)
Definition insert (doc : Coffee.t) : M Coffee.t :=
  fun w =>
    let w1 := called (Save (Coffee._id doc)) w in
    if rejects w || negb (isNull (lookup (Coffee._id doc) (coffees w)))
    then (Thrown, w1)
    else (Val doc, set_coffees w1 (coffees w1 ++ [doc])).

(** Modelled from the spec: [new Coffee({...})]. The schema of the Coffee
    model is not in the sources; beside the fields the document is built
    from it gives the document an identifier of its own, no likes, no
    comments and the derived fields 0 ("new ShopRecord with likes=[],
    comments=[], averageReview=0, totalReview=0"). *)
Definition new_Coffee (_id : string) (text address suburb name : JS.value)
                      (avatar user : string) : Coffee.t :=
  Coffee.mk _id user text name address suburb avatar [] (Some [])
            (JS.number JS.zero) (JS.number JS.zero).

(** [check(field, ...).not().isEmpty()] of the validation middleware
    fails on the values whose string form is empty. *)
Definition isEmpty (v : JS.value) : bool :=
  match v with
  | JS.undefined | JS.null => true
  | JS.number x => JS.is_NaN x
  | JS.str s => String.eqb s ""
  | JS.boolean _ | JS.inherited _ => false
  end.

(** A field as a request carries it: its value in each of the places
    [check] reads, [req.body], [req.cookies], [req.headers], [req.params]
    and [req.query], [undefined] where the field is absent. *)
Record Located : Type := located
  { in_body : JS.value;
    in_cookies : JS.value;
    in_headers : JS.value;
    in_params : JS.value;
    in_query : JS.value }.

(** A field that the request carries in its body only. *)
Definition body_only (v : JS.value) : Located :=
  located v JS.undefined JS.undefined JS.undefined JS.undefined.

Definition defined (v : JS.value) : bool :=
  match v with JS.undefined => false | _ => true end.

(** The instances of a field the middleware validates: those of the
    places where the field has a value, and the one of the body when it
    has a value nowhere. *)
Definition instances (f : Located) : list JS.value :=
  match filter defined [in_body f; in_cookies f; in_headers f; in_params f;
                        in_query f] with
  | [] => [in_body f]
  | withValue => withValue
  end.

(** [check(field, ...).not().isEmpty()] passes: every instance of the
    field does. *)
Definition not_isEmpty (f : Located) : bool :=
  forallb (fun v => negb (isEmpty v)) (instances f).

(* ------------------------------------------------------------------ *)
(** * The routes

    Each handler takes what the transport layer hands it (the route
    parameters, the identifier [caller] of the authenticated user where
    the route is private, the fields of the body) and maps a world to the
    response and the world after it. *)

Module router.

Import JS.

Section GetRoot.

(** [Coffee.find().sort(sortbyObj)] orders the collection in the store;
    the ordering it applies for a sort entry is the store's. *)
Variable sort : value -> value -> list Coffee.t -> list Coffee.t.

Definition label : list (string * value) :=
  [ ("highest", str "averageReview");
    ("loweset", str "averageReview");
    ("most", str "totalReview");
    ("least", str "totalReview") ].

Definition labelValue : list (string * value) :=
  [ ("highest", str "-1");
    ("loweset", str "1");
    ("most", str "-1");
    ("least", str "1") ].

(** GET /  -- [sortby] is [req.query.sortby], [None] when absent. The
    one entry of [sortbyObj] is passed as its label and its value. *)
Definition get_root (sortby : option string) : World -> Response * World :=
  let sortbyLabel := get label sortby in
  let sortValue := get labelValue sortby in
  try_catch
    (posts <- await (FindSorted sortbyLabel sortValue)
                    (fun w => (sort sortbyLabel sortValue (coffees w), w)) ;;
     respond 200 (Docs posts)).

End GetRoot.

(** GET /:id *)
Definition get_id (id : string) : World -> Response * World :=
  try_catch
    (coffee <- Coffee_findById id ;;
     c <- deref coffee ;;
     let totalReviewNumber :=
       match Coffee.comments c with
       | Some comments =>
           number (reduce (fun comment currentValue =>
                             add comment (Number (Comment.review currentValue)))
                          zero comments)
       | None => undefined
       end in
     let totalReview :=
       match Coffee.comments c with
       | Some comments => number (length comments)
       | None => undefined
       end in
     let averageReview := toFixed2 (divide totalReviewNumber totalReview) in
     let c := Coffee.set_averageReview c
                (if truthy (Coffee.comments c) then str averageReview
                 else number zero) in
     let c := Coffee.set_totalReview c
                (if truthy (Coffee.comments c) then totalReview
                 else number zero) in
     if negb (matches_hex24 id) || isNull coffee
     then respond 404 (Msg "Coffee not found")
     else save c ;;; respond 200 (Doc c)).

(** DELETE /:id *)
Definition delete_id (id caller : string) : World -> Response * World :=
  try_catch
    (post <- Coffee_findById id ;;
     if negb (matches_hex24 id) || isNull post
     then respond 404 (Msg "Coffee not found")
     else
       p <- deref post ;;
       if negb (String.eqb (Coffee.user p) caller)
       then respond 401 (Msg "User not authorized")
       else remove p ;;; respond 200 (Msg "Coffee removed")).

(** [post.likes.filter(like => like.user.toString() === req.user.id).length] *)
Definition likes_of (caller : string) (likes : list Like.t) : nat :=
  List.length (filter (fun like => String.eqb (Like.user like) caller) likes).

(** PUT /like/:id *)
Definition put_like (id caller : string) : World -> Response * World :=
  try_catch
    (post <- Coffee_findById id ;;
     p <- deref post ;;
     if (0 <? likes_of caller (Coffee.likes p))%nat
     then respond 400 (Msg "Coffee already liked")
     else
       let p := Coffee.set_likes p
                  (unshift (Coffee.likes p) (Like.mk caller)) in
       save p ;;; respond 200 (Likes (Coffee.likes p))).

(** PUT /unlike/:id *)
Definition put_unlike (id caller : string) : World -> Response * World :=
  try_catch
    (post <- Coffee_findById id ;;
     p <- deref post ;;
     if (likes_of caller (Coffee.likes p) =? 0)%nat
     then respond 400 (Msg "Coffee has not yet been liked")
     else
       let removeIndex := indexOf (map Like.user (Coffee.likes p)) caller in
       let p := Coffee.set_likes p (splice1 (Coffee.likes p) removeIndex) in
       save p ;;; respond 200 (Likes (Coffee.likes p))).

(** POST /comment/:id -- [text] and [review] as the request carries them:
    the validators read every place, the handler the body. *)
Definition post_comment (id caller : string) (text review : Located)
  : World -> Response * World :=
  fun w =>
    let errors := (if not_isEmpty text then [] else ["text"])
                  ++ (if not_isEmpty review then [] else ["review"]) in
    match errors with
    | _ :: _ => (json 400 (Errors errors), w)
    | [] =>
        try_catch
          (user <- User_findById caller ;;
           coffee <- Coffee_findById id ;;
           u <- deref user ;;
           c <- deref coffee ;;
           comments <- deref (Coffee.comments c) ;;
           _id <- ObjectId ;;
           let newComment :=
             Comment.mk _id caller (in_body text) (in_body review)
                        (User.name u) (User.avatar u) in
           let c := Coffee.set_comments c (unshift comments newComment) in
           save c ;;; respond 200 (Comments (unshift comments newComment)))
          w
    end.

(** DELETE /comment/:id/:comment_id *)
Definition delete_comment (id comment_id caller : string)
  : World -> Response * World :=
  try_catch
    (post <- Coffee_findById id ;;
     p <- deref post ;;
     comments <- deref (Coffee.comments p) ;;
     match find (fun comment => String.eqb (Comment.id comment) comment_id)
                comments with
     | None => respond 404 (Msg "Comment does not exist")
     | Some comment =>
         if negb (String.eqb (Comment.user comment) caller)
         then respond 401 (Msg "User not authorized")
         else
           let kept := filter (fun c => negb (String.eqb (Comment.id c)
                                                          comment_id))
                              comments in
           let p := Coffee.set_comments p kept in
           save p ;;; respond 200 (Comments kept)
     end).

(** POST /  -- [text] as the request carries it (the validator reads
    every place, the handler the body); [address], [suburb] and [name] are
    the fields of the body. *)
Definition post_root (caller : string) (text : Located)
                     (address suburb name : value)
  : World -> Response * World :=
  fun w =>
    if negb (not_isEmpty text) then (json 400 (Errors ["text"]), w)
    else
      try_catch
        (user <- User_findById caller ;;
         u <- deref user ;;
         _id <- ObjectId ;;
         let nnnnewCoffee :=
           new_Coffee _id (in_body text) address suburb name (User.avatar u)
                      caller in
         coffee <- insert nnnnewCoffee ;;
         respond 200 (Doc coffee))
        w.

End router.

(* ------------------------------------------------------------------ *)
(** * Sequences of like and unlike requests *)

Inductive LikeOp : Type := like | unlike.

Definition request (id caller : string) (op : LikeOp)
  : World -> Response * World :=
  match op with
  | like => router.put_like id caller
  | unlike => router.put_unlike id caller
  end.

(** The world after the requests [ops] of [caller] on the record [id],
    one after the other. *)
Definition run (id caller : string) (ops : list LikeOp) (w : World) : World :=
  fold_left (fun w op => snd (request id caller op w)) ops w.

(** How many times [user] occurs in the likes of the stored record [id]. *)
Definition liked (id user : string) (w : World) : nat :=
  match lookup id (coffees w) with
  | Some p => count_occ string_dec (map Like.user (Coffee.likes p)) user
  | None => 0
  end.

(* ------------------------------------------------------------------ *)
(** * Overlapping like requests

    A handler runs from one [await] to the next without interruption, and
    between two of them another handler may run. PUT /like/:id has two:
    the load and the save. *)

(** PUT /like/:id from the document its first [await] resolved to, to its
    answer. *)
Definition like_loaded (caller : string) (post : option Coffee.t)
  : M Response :=
  p <- deref post ;;
  if (0 <? router.likes_of caller (Coffee.likes p))%nat
  then respond 400 (Msg "Coffee already liked")
  else
    let p := Coffee.set_likes p
               (JS.unshift (Coffee.likes p) (Like.mk caller)) in
    save p ;;; respond 200 (Likes (Coffee.likes p)).

(** A handler suspended at its first [await] goes on, inside its [try],
    with the outcome [o] of the call it awaited. *)
Definition resume (k : option Coffee.t -> M Response)
                  (o : Outcome (option Coffee.t))
  : World -> Response * World :=
  try_catch (post <- (fun w => (o, w)) ;; k post).

(** Two like requests on the record [id], by [a] and by [b], that
    overlap: [a] loads, [b] loads, [a] goes on to its answer, then [b]
    does. The answers are those to [a] and to [b]. *)
Definition overlapping_likes (id a b : string) (w : World)
  : Response * Response * World :=
  let '(loaded_a, w1) := Coffee_findById id w in
  let '(loaded_b, w2) := Coffee_findById id w1 in
  let '(answer_a, w3) := resume (like_loaded a) loaded_a w2 in
  let '(answer_b, w4) := resume (like_loaded b) loaded_b w3 in
  (answer_a, answer_b, w4).

(* ------------------------------------------------------------------ *)
(** * The router as a whole *)

(** A request to one of the routes, with what the transport layer hands
    the handler. *)
Inductive Request : Type :=
  | POST_root (caller : string) (text : Located)
              (address suburb name : JS.value)
  | GET_root (sortby : option string)
  | GET_id (id : string)
  | DELETE_id (id caller : string)
  | PUT_like (id caller : string)
  | PUT_unlike (id caller : string)
  | POST_comment (id caller : string) (text review : Located)
  | DELETE_comment (id comment_id caller : string).

Section Server.

Variable sort : JS.value -> JS.value -> list Coffee.t -> list Coffee.t.

Definition handle (r : Request) : World -> Response * World :=
  match r with
  | POST_root caller text address suburb name =>
      router.post_root caller text address suburb name
  | GET_root sortby => router.get_root sort sortby
  | GET_id id => router.get_id id
  | DELETE_id id caller => router.delete_id id caller
  | PUT_like id caller => router.put_like id caller
  | PUT_unlike id caller => router.put_unlike id caller
  | POST_comment id caller text review =>
      router.post_comment id caller text review
  | DELETE_comment id comment_id caller =>
      router.delete_comment id comment_id caller
  end.

(** The world after the requests [rs], one after the other. *)
Definition serve (rs : list Request) (w : World) : World :=
  fold_left (fun w r => snd (handle r w)) rs w.

End Server.

(** The stored documents once [doc] has been saved over the one of its
    [_id], and once the documents of the [_id] have been removed: the
    collections [save] and [remove] leave. *)
Definition saved (doc : Coffee.t) (l : list Coffee.t) : list Coffee.t :=
  map (fun d => if String.eqb (Coffee._id d) (Coffee._id doc) then doc else d)
      l.

Definition removed (id : string) (l : list Coffee.t) : list Coffee.t :=
  filter (fun d => negb (String.eqb (Coffee._id d) id)) l.

(** The fields of a record that no route assigns. *)
Definition fixed (c : Coffee.t)
  : string * string * JS.value * JS.value * JS.value * JS.value * string :=
  (Coffee._id c, Coffee.user c, Coffee.text c, Coffee.name c,
   Coffee.address c, Coffee.suburb c, Coffee.avatar c).

(** The record a request is addressed to, for the routes of one record. *)
Definition target (r : Request) : option string :=
  match r with
  | GET_id id | DELETE_id id _ | PUT_like id _ | PUT_unlike id _
  | POST_comment id _ _ _ | DELETE_comment id _ _ => Some id
  | POST_root _ _ _ _ _ | GET_root _ => None
  end.

(** The statuses the handler of a request sends. *)
Definition statuses (r : Request) : list Z :=
  match r with
  | GET_root _ => [200; 500]
  | GET_id _ => [200; 404; 500]
  | POST_root _ _ _ _ _ | PUT_like _ _ | PUT_unlike _ _
  | POST_comment _ _ _ _ => [200; 400; 500]
  | DELETE_id _ _ | DELETE_comment _ _ _ => [200; 401; 404; 500]
  end.

(** No user occurs twice in the likes of a stored record (I1). *)
Definition likes_unique (l : list Coffee.t) : Prop :=
  Forall (fun c => NoDup (map Like.user (Coffee.likes c))) l.

(* ------------------------------------------------------------------ *)
(** * The derived fields *)

(** The sum GET /:id folds over a comments array. *)
Definition totalReviewNumber (comments : list Comment.t) : JS.num :=
  JS.reduce (fun comment currentValue =>
               JS.add comment (JS.Number (Comment.review currentValue)))
            JS.zero comments.

(** The average GET /:id derives from a comments array. *)
Definition averageReview (comments : list Comment.t) : string :=
  JS.toFixed2 (JS.div (totalReviewNumber comments) (JS.length comments)).

(** The record GET /:id saves and sends for a record whose comments are
    the array [comments]. *)
Definition refreshed (c : Coffee.t) (comments : list Comment.t) : Coffee.t :=
  Coffee.set_totalReview
    (Coffee.set_averageReview c (JS.str (averageReview comments)))
    (JS.number (JS.length comments)).

(* ------------------------------------------------------------------ *)
(** * Sample data *)

Module Sample.

Definition shop_id : string := "5d7a514b5d2c12c7449be042".
Definition ann : string := "5d7a4f1c5d2c12c7449be040".
Definition bob : string := "5d7a4f9e5d2c12c7449be041".

Definition comment (id user review : string) : Comment.t :=
  Comment.mk id user (JS.str "ok") (JS.str review) "name" "avatar".

Definition shop (likes : list Like.t) (comments : list Comment.t) : Coffee.t :=
  Coffee.mk shop_id ann (JS.str "Corner Cafe") (JS.str "Corner")
            (JS.str "1 High St") (JS.str "Carlton") "a.png"
            likes (Some comments) (JS.number JS.zero) (JS.number JS.zero).

Definition world (docs : list Coffee.t) : World :=
  mkWorld docs [User.mk ann "Ann" "ann.png"; User.mk bob "Bob" "bob.png"]
          [] [] 0.

End Sample.

(* ------------------------------------------------------------------ *)
(** * Lemmas on the store and on arrays *)

Section StoreLemmas.

Lemma lookup_id (id : string) (l : list Coffee.t) (p : Coffee.t) :
  lookup id l = Some p -> Coffee._id p = id.
Proof.
  unfold lookup. intros H. apply find_some in H.
  now apply String.eqb_eq.
Qed.

(** After [save], the stored record is the saved one. *)
Lemma lookup_saved (id : string) (l : list Coffee.t) (p q : Coffee.t) :
  lookup id l = Some p -> Coffee._id q = id ->
  lookup id (map (fun d => if String.eqb (Coffee._id d) id then q else d) l)
  = Some q.
Proof.
  intros Hp Hq. unfold lookup in *.
  induction l as [|d l IH]; simpl in *; [discriminate|].
  destruct (String.eqb (Coffee._id d) id) eqn:E; simpl.
  - rewrite Hq, String.eqb_refl. reflexivity.
  - rewrite E. auto.
Qed.

Lemma accepted_next (n : nat) (c : Call) (w : World) :
  accepted (S n) w = true ->
  rejects w = false /\ accepted n (called c w) = true.
Proof.
  unfold accepted, rejects, called; simpl.
  destruct (faults w) as [|[|] fs]; simpl; intros H;
    try discriminate; split; auto.
  now destruct n.
Qed.

End StoreLemmas.

Section NumberLemmas.

(** [round_half_up p q] is within one half of [p / q], and is the upper
    one of the two integers that are exactly one half away. *)
Lemma round_half_up_nearest (p q : Z) :
  0 < q ->
  2 * q * JS.round_half_up p q - q <= 2 * p
  /\ 2 * p < 2 * q * JS.round_half_up p q + q.
Proof.
  intros Hq. unfold JS.round_half_up.
  pose proof (Z.mul_div_le (2 * p + q) (2 * q)) as L.
  pose proof (Z.mul_succ_div_gt (2 * p + q) (2 * q)) as U.
  lia.
Qed.

(** For a number [m * 2^(-k)], [toFixed(2)] writes the hundredths nearest
    to it. *)
Lemma scaled100_nearest (m k : positive) :
  let n := JS.scaled100 m (Zneg k) in
  (2 * n - 1) * 2 ^ Zpos k <= 200 * Zpos m
  /\ 200 * Zpos m < (2 * n + 1) * 2 ^ Zpos k.
Proof.
  intros n. subst n. unfold JS.scaled100.
  rewrite Pos2Z.inj_pow.
  set (q := Zpos 2 ^ Zpos k).
  assert (Hq : 0 < q) by (apply Z.pow_pos_nonneg; lia).
  destruct (round_half_up_nearest (100 * Zpos m) q Hq) as [L U].
  split; lia.
Qed.

End NumberLemmas.

Section ArrayLemmas.

Lemma likes_of_count (u : string) (l : list Like.t) :
  router.likes_of u l = count_occ string_dec (map Like.user l) u.
Proof.
  unfold router.likes_of.
  induction l as [|x l IH]; simpl; [reflexivity|].
  destruct (string_dec (Like.user x) u) as [E|E].
  - apply String.eqb_eq in E. rewrite E. simpl. now rewrite IH.
  - apply String.eqb_neq in E. now rewrite E.
Qed.

(** [indexOf] finds the first occurrence. *)
Lemma indexOf_first (l1 l2 : list string) (x : string) :
  ~ In x l1 -> JS.indexOf (l1 ++ x :: l2) x = Z.of_nat (List.length l1).
Proof.
  induction l1 as [|y l1 IH]; simpl; intros H.
  - now rewrite String.eqb_refl.
  - destruct (String.eqb y x) eqn:E.
    + apply String.eqb_eq in E. tauto.
    + rewrite IH by tauto.
      destruct (Z.of_nat (List.length l1) <? 0) eqn:L.
      * apply Z.ltb_lt in L. lia.
      * lia.
Qed.

(** [splice(i, 1)] at the position of an element removes that element. *)
Lemma splice1_at {A} (l1 l2 : list A) (x : A) :
  JS.splice1 (l1 ++ x :: l2) (Z.of_nat (List.length l1)) = l1 ++ l2.
Proof.
  unfold JS.splice1.
  assert (E : (Z.of_nat (List.length l1) <? 0) = false)
    by (apply Z.ltb_ge; lia).
  rewrite E, length_app. simpl.
  rewrite Z.min_l by lia. rewrite Nat2Z.id.
  induction l1 as [|y l1 IH]; simpl; [reflexivity|].
  f_equal. apply IH. apply Z.ltb_ge. lia.
Qed.

(** A user who occurs in the likes has a first like. *)
Lemma first_like (u : string) (l : list Like.t) :
  In u (map Like.user l) ->
  exists l1 x l2, l = l1 ++ x :: l2 /\ Like.user x = u
                  /\ ~ In u (map Like.user l1).
Proof.
  induction l as [|y l IH]; simpl; [tauto|].
  intros H. destruct (string_dec (Like.user y) u) as [E|E].
  - exists [], y, l. simpl. tauto.
  - destruct IH as (l1 & x & l2 & -> & Hx & Hn); [tauto|].
    exists (y :: l1), x, l2. simpl. repeat split; auto. tauto.
Qed.

End ArrayLemmas.

(* ------------------------------------------------------------------ *)
(** * The like and unlike routes *)

Ltac unfold_handler :=
  unfold try_catch, bind, Coffee_findById, User_findById, save, remove,
    ObjectId, await, deref, respond, ret, throw.

Section Likes.

Variables (id u : string) (w : World) (p : Coffee.t).
Hypothesis stored : lookup id (coffees w) = Some p.

Lemma present_likes_of :
  In u (map Like.user (Coffee.likes p)) <->
  (0 <? router.likes_of u (Coffee.likes p))%nat = true.
Proof.
  rewrite likes_of_count, Nat.ltb_lt.
  apply (count_occ_In string_dec).
Qed.

Lemma put_like_conflict :
  rejects w = false ->
  In u (map Like.user (Coffee.likes p)) ->
  router.put_like id u w
  = (json 400 (Msg "Coffee already liked"), called (FindCoffee id) w).
Proof.
  intros Hr Hin. apply present_likes_of in Hin.
  unfold router.put_like. unfold_handler.
  rewrite Hr. simpl. rewrite stored. simpl. rewrite Hin. reflexivity.
Qed.

Lemma put_like_prepends :
  accepted 2 w = true ->
  ~ In u (map Like.user (Coffee.likes p)) ->
  let p' := Coffee.set_likes p (Like.mk u :: Coffee.likes p) in
  fst (router.put_like id u w) = json 200 (Likes (Coffee.likes p'))
  /\ lookup id (coffees (snd (router.put_like id u w))) = Some p'.
Proof.
  intros Ha Hn p'.
  destruct (accepted_next _ (FindCoffee id) _ Ha) as [Hr Ha1].
  destruct (accepted_next _ (Save id) _ Ha1) as [Hr1 _].
  assert (Hc : (0 <? router.likes_of u (Coffee.likes p))%nat = false).
  { destruct (0 <? _)%nat eqn:E; [|reflexivity].
    apply present_likes_of in E. tauto. }
  unfold router.put_like. unfold_handler.
  rewrite Hr. simpl. rewrite stored. simpl. rewrite Hc.
  unfold rejects in Hr1 |- *. simpl in Hr1 |- *. rewrite Hr1. simpl.
  split; [reflexivity|].
  rewrite (lookup_id _ _ _ stored).
  apply lookup_saved with (p := p); [exact stored|].
  exact (lookup_id _ _ _ stored).
Qed.

Lemma put_unlike_conflict :
  rejects w = false ->
  ~ In u (map Like.user (Coffee.likes p)) ->
  router.put_unlike id u w
  = (json 400 (Msg "Coffee has not yet been liked"),
     called (FindCoffee id) w).
Proof.
  intros Hr Hn.
  assert (Hc : (router.likes_of u (Coffee.likes p) =? 0)%nat = true).
  { apply Nat.eqb_eq. rewrite likes_of_count.
    now apply (count_occ_not_In string_dec). }
  unfold router.put_unlike. unfold_handler.
  rewrite Hr. simpl. rewrite stored. simpl. rewrite Hc. reflexivity.
Qed.

Lemma put_unlike_removes (l1 l2 : list Like.t) (x : Like.t) :
  accepted 2 w = true ->
  Coffee.likes p = l1 ++ x :: l2 -> Like.user x = u ->
  ~ In u (map Like.user l1) ->
  let p' := Coffee.set_likes p (l1 ++ l2) in
  fst (router.put_unlike id u w) = json 200 (Likes (l1 ++ l2))
  /\ lookup id (coffees (snd (router.put_unlike id u w))) = Some p'.
Proof.
  intros Ha Hl Hx Hn p'.
  destruct (accepted_next _ (FindCoffee id) _ Ha) as [Hr Ha1].
  destruct (accepted_next _ (Save id) _ Ha1) as [Hr1 _].
  assert (Hc : (router.likes_of u (Coffee.likes p) =? 0)%nat = false).
  { apply Nat.eqb_neq. rewrite likes_of_count.
    apply Nat.neq_0_lt_0, (count_occ_In string_dec).
    rewrite Hl, map_app. apply in_or_app. right. simpl. auto. }
  assert (Hs : JS.splice1 (Coffee.likes p)
                 (JS.indexOf (map Like.user (Coffee.likes p)) u)
               = l1 ++ l2).
  { rewrite Hl at 2. rewrite map_app. simpl. rewrite Hx.
    rewrite indexOf_first by exact Hn.
    rewrite length_map, Hl. apply splice1_at. }
  unfold router.put_unlike. unfold_handler.
  rewrite Hr. simpl. rewrite stored. simpl. rewrite Hc, Hs.
  unfold rejects in Hr1 |- *. simpl in Hr1 |- *. rewrite Hr1. simpl.
  split; [reflexivity|].
  rewrite (lookup_id _ _ _ stored).
  apply lookup_saved with (p := p); [exact stored|].
  exact (lookup_id _ _ _ stored).
Qed.

End Likes.

Section LikesInvariant.

Variables (id u : string).

(** What a like request can do to the stored records. *)
Lemma put_like_effect (w : World) :
  coffees (snd (router.put_like id u w)) = coffees w
  \/ exists p,
       lookup id (coffees w) = Some p
       /\ ~ In u (map Like.user (Coffee.likes p))
       /\ lookup id (coffees (snd (router.put_like id u w)))
          = Some (Coffee.set_likes p (Like.mk u :: Coffee.likes p)).
Proof.
  destruct (rejects w) eqn:Hr.
  { left. unfold router.put_like. unfold_handler. now rewrite Hr. }
  destruct (lookup id (coffees w)) as [p|] eqn:Hp.
  2:{ left. unfold router.put_like. unfold_handler.
      rewrite Hr. simpl. now rewrite Hp. }
  destruct (in_dec string_dec u (map Like.user (Coffee.likes p))) as [Hin|Hn].
  { left. now rewrite (put_like_conflict id u w p Hp Hr Hin). }
  destruct (rejects (called (FindCoffee id) w)) eqn:Hr1.
  - left. unfold router.put_like. unfold_handler.
    rewrite Hr. simpl. rewrite Hp. simpl.
    destruct (0 <? _)%nat; [reflexivity|].
    unfold rejects in Hr1 |- *. simpl in Hr1 |- *. now rewrite Hr1.
  - right. exists p. repeat split; auto.
    apply put_like_prepends; auto.
    unfold accepted, rejects in *. simpl in *.
    destruct (faults w) as [|[|] [|[|] fs]]; simpl in *; congruence.
Qed.

(** What an unlike request can do to the stored records. *)
Lemma put_unlike_effect (w : World) :
  coffees (snd (router.put_unlike id u w)) = coffees w
  \/ exists p l1 x l2,
       lookup id (coffees w) = Some p
       /\ Coffee.likes p = l1 ++ x :: l2 /\ Like.user x = u
       /\ ~ In u (map Like.user l1)
       /\ lookup id (coffees (snd (router.put_unlike id u w)))
          = Some (Coffee.set_likes p (l1 ++ l2)).
Proof.
  destruct (rejects w) eqn:Hr.
  { left. unfold router.put_unlike. unfold_handler. now rewrite Hr. }
  destruct (lookup id (coffees w)) as [p|] eqn:Hp.
  2:{ left. unfold router.put_unlike. unfold_handler.
      rewrite Hr. simpl. now rewrite Hp. }
  destruct (in_dec string_dec u (map Like.user (Coffee.likes p))) as [Hin|Hn].
  2:{ left. now rewrite (put_unlike_conflict id u w p Hp Hr Hn). }
  destruct (rejects (called (FindCoffee id) w)) eqn:Hr1.
  - left. unfold router.put_unlike. unfold_handler.
    rewrite Hr. simpl. rewrite Hp. simpl.
    destruct (_ =? 0)%nat; [reflexivity|].
    unfold rejects in Hr1 |- *. simpl in Hr1 |- *. now rewrite Hr1.
  - right. destruct (first_like u _ Hin) as (l1 & x & l2 & Hl & Hx & Hn).
    exists p, l1, x, l2. repeat split; auto.
    apply put_unlike_removes with (x := x); auto.
    unfold accepted, rejects in *. simpl in *.
    destruct (faults w) as [|[|] [|[|] fs]]; simpl in *; congruence.
Qed.

Lemma request_keeps_unique (op : LikeOp) (w : World) :
  (liked id u w <= 1)%nat ->
  (liked id u (snd (request id u op w)) <= 1)%nat.
Proof.
  intros H. destruct op; simpl.
  - destruct (put_like_effect w) as [E|(p & Hp & Hn & E)];
      unfold liked in *; rewrite E; [exact H|]. simpl.
    destruct (string_dec u u); [|congruence].
    apply (count_occ_not_In string_dec) in Hn. rewrite Hn. lia.
  - destruct (put_unlike_effect w) as [E|(p & l1 & x & l2 & Hp & Hl & Hx & Hn & E)];
      unfold liked in *; rewrite E; [exact H|]. simpl.
    rewrite Hp, Hl in H. rewrite map_app, count_occ_app in *.
    simpl in H. destruct (string_dec (Like.user x) u); lia.
Qed.

Lemma run_keeps_unique (ops : list LikeOp) (w : World) :
  (liked id u w <= 1)%nat -> (liked id u (run id u ops w) <= 1)%nat.
Proof.
  revert w. induction ops as [|op ops IH]; intros w H; simpl; [exact H|].
  apply IH, request_keeps_unique, H.
Qed.

End LikesInvariant.

(** A like or unlike request answers 200, 400 or 500. *)
Lemma request_status (id u : string) (op : LikeOp) (w : World) :
  In (status (fst (request id u op w))) [200; 400; 500].
Proof.
  destruct op; simpl; [unfold router.put_like | unfold router.put_unlike];
    unfold_handler;
    (destruct (rejects w); simpl; [tauto|]);
    (destruct (lookup id (coffees w)); simpl; [|tauto]);
    match goal with |- context [if ?b then _ else _] => destruct b end;
    simpl; try tauto;
    unfold rejects; simpl; destruct (tl (faults w)) as [|[|] ?]; simpl; tauto.
Qed.

(** A like or unlike request on an identifier that matches no record. *)
Lemma request_missing (id u : string) (op : LikeOp) (w : World) :
  lookup id (coffees w) = None ->
  fst (request id u op w) = ServerError.
Proof.
  intros H.
  destruct op; simpl; [unfold router.put_like | unfold router.put_unlike];
    unfold_handler; destruct (rejects w); simpl; try reflexivity;
    rewrite H; reflexivity.
Qed.

(* ------------------------------------------------------------------ *)
(** * Properties of the like and unlike routes *)

(** C4: as long as the likes of a record hold a user at most once, they
    still do after every prefix of every sequence of like and unlike
    requests of that user on the record, whatever the store answers. A like
    of a user who is in the likes is answered 400 "Coffee already liked"
    and leaves the records as they are; a like of a user who is not is
    answered 200 with the likes, the user put first, and that is what the
    store then holds. *)
Theorem likes_hold_a_user_once
  (id u : string) (ops : list LikeOp) (w : World) :
  (liked id u w <= 1)%nat ->
  (forall n, (liked id u (run id u (firstn n ops) w) <= 1)%nat)
  /\ (forall w' p,
        lookup id (coffees w') = Some p -> accepted 2 w' = true ->
        (In u (map Like.user (Coffee.likes p)) ->
         fst (router.put_like id u w') = json 400 (Msg "Coffee already liked")
         /\ coffees (snd (router.put_like id u w')) = coffees w')
        /\ (~ In u (map Like.user (Coffee.likes p)) ->
            fst (router.put_like id u w')
            = json 200 (Likes (Like.mk u :: Coffee.likes p))
            /\ lookup id (coffees (snd (router.put_like id u w')))
               = Some (Coffee.set_likes p (Like.mk u :: Coffee.likes p)))).
Proof.
  intros H. split.
  - intros n. apply run_keeps_unique, H.
  - intros w' p Hp Ha. split; intros Hu.
    + destruct (accepted_next _ (FindCoffee id) _ Ha) as [Hr _].
      rewrite (put_like_conflict id u w' p Hp Hr Hu). split; reflexivity.
    + exact (put_like_prepends id u w' p Hp Ha Hu).
Qed.

Lemma likes_hold_a_user_once_witness :
  let w := Sample.world [Sample.shop [Like.mk Sample.ann] []] in
  (liked Sample.shop_id Sample.bob w <= 1)%nat
  /\ (liked Sample.shop_id Sample.bob
        (run Sample.shop_id Sample.bob [like; like; unlike; unlike; like] w)
      <= 1)%nat
  /\ fst (router.put_like Sample.shop_id Sample.ann w)
     = json 400 (Msg "Coffee already liked")
  /\ fst (router.put_like Sample.shop_id Sample.bob w)
     = json 200 (Likes [Like.mk Sample.bob; Like.mk Sample.ann]).
Proof.
  intros w.
  assert (H : (liked Sample.shop_id Sample.bob w <= 1)%nat)
    by (vm_compute; lia).
  split; [exact H|].
  destruct (likes_hold_a_user_once Sample.shop_id Sample.bob
              [like; like; unlike; unlike; like] w H) as [Hrun _].
  destruct (likes_hold_a_user_once Sample.shop_id Sample.ann [] w)
    as [_ Hann]; [vm_compute; lia|].
  destruct (likes_hold_a_user_once Sample.shop_id Sample.bob [] w H)
    as [_ Hbob].
  split; [exact (Hrun 5%nat)|].
  split.
  - apply (Hann w _ eq_refl eq_refl). simpl. auto.
  - apply (Hbob w _ eq_refl eq_refl). simpl.
    intros [E|[]]. discriminate E.
Defined.

(** C8: on a stored record, with the store answering, an unlike of a user
    who is not in the likes is answered 400 "Coffee has not yet been
    liked" and leaves the records as they are; an unlike of a user who is
    in the likes removes that user's first like and nothing else: every
    other entry stays, in the same order, and when the likes held the user
    at most once the user is no longer in them. *)
Theorem unlike_removes_the_like (id u : string) (w : World) (p : Coffee.t) :
  lookup id (coffees w) = Some p -> accepted 2 w = true ->
  (~ In u (map Like.user (Coffee.likes p)) ->
   fst (router.put_unlike id u w)
   = json 400 (Msg "Coffee has not yet been liked")
   /\ coffees (snd (router.put_unlike id u w)) = coffees w)
  /\ (In u (map Like.user (Coffee.likes p)) ->
      exists l1 x l2,
        Coffee.likes p = l1 ++ x :: l2 /\ Like.user x = u
        /\ ~ In u (map Like.user l1)
        /\ fst (router.put_unlike id u w) = json 200 (Likes (l1 ++ l2))
        /\ lookup id (coffees (snd (router.put_unlike id u w)))
           = Some (Coffee.set_likes p (l1 ++ l2))
        /\ ((liked id u w <= 1)%nat ->
            ~ In u (map Like.user (l1 ++ l2)))).
Proof.
  intros Hp Ha. split; intros Hu.
  - destruct (accepted_next _ (FindCoffee id) _ Ha) as [Hr _].
    rewrite (put_unlike_conflict id u w p Hp Hr Hu). split; reflexivity.
  - destruct (first_like u _ Hu) as (l1 & x & l2 & Hl & Hx & Hn).
    exists l1, x, l2.
    destruct (put_unlike_removes id u w p Hp l1 l2 x Ha Hl Hx Hn) as [R S].
    repeat split; auto.
    unfold liked. rewrite Hp, Hl, !map_app, count_occ_app. simpl.
    destruct (string_dec (Like.user x) u); [|congruence].
    intros Hc Hin. apply in_app_or in Hin.
    destruct Hin as [Hin|Hin]; [tauto|].
    apply (count_occ_In string_dec) in Hin. lia.
Qed.

Lemma unlike_removes_the_like_witness :
  let p := Sample.shop [Like.mk Sample.ann; Like.mk Sample.bob] [] in
  fst (router.put_unlike Sample.shop_id "5d7a4f9e5d2c12c7449be04f"
         (Sample.world [p]))
  = json 400 (Msg "Coffee has not yet been liked")
  /\ exists l1 x l2,
       Coffee.likes p = l1 ++ x :: l2
       /\ fst (router.put_unlike Sample.shop_id Sample.bob (Sample.world [p]))
          = json 200 (Likes (l1 ++ l2)).
Proof.
  intros p. split.
  - destruct (unlike_removes_the_like Sample.shop_id
                "5d7a4f9e5d2c12c7449be04f" (Sample.world [p]) p
                eq_refl eq_refl) as [H _].
    apply H. simpl. intros [E|[E|[]]]; discriminate E.
  - destruct (unlike_removes_the_like Sample.shop_id Sample.bob
                (Sample.world [p]) p eq_refl eq_refl) as [_ H].
    destruct H as (l1 & x & l2 & Hl & _ & _ & R & _).
    + simpl. auto.
    + exists l1, x, l2. split; assumption.
Defined.

(** C9 (as the code has it): a like or an unlike whose identifier matches
    no record is answered 500 "Server Error", not 404; the answers of the
    two routes are 200, 400 and 500, never 404. *)
Theorem like_unlike_of_missing_record (id u : string) (op : LikeOp) (w : World) :
  lookup id (coffees w) = None ->
  fst (request id u op w) = ServerError
  /\ forall w', status (fst (request id u op w')) <> 404.
Proof.
  intros H. split; [exact (request_missing id u op w H)|].
  intros w' E. pose proof (request_status id u op w') as S.
  rewrite E in S. simpl in S. intuition discriminate.
Qed.

Lemma like_unlike_of_missing_record_witness :
  fst (router.put_like Sample.shop_id Sample.bob (Sample.world []))
  = json 500 (Send "Server Error")
  /\ fst (router.put_unlike Sample.shop_id Sample.bob (Sample.world []))
     = json 500 (Send "Server Error").
Proof.
  split.
  - exact (proj1 (like_unlike_of_missing_record Sample.shop_id Sample.bob
                    like (Sample.world []) eq_refl)).
  - exact (proj1 (like_unlike_of_missing_record Sample.shop_id Sample.bob
                    unlike (Sample.world []) eq_refl)).
Defined.

(* ------------------------------------------------------------------ *)
(** * The comment routes *)

Section CommentArrays.

Variable cid : string.

Lemma find_absent (cs : list Comment.t) :
  ~ In cid (map Comment.id cs) -> find (fun comment => String.eqb (Comment.id comment) cid) cs = None.
Proof.
  induction cs as [|c cs IH]; simpl; [reflexivity|]. intros H.
  destruct (String.eqb (Comment.id c) cid) eqn:E.
  - apply String.eqb_eq in E. tauto.
  - apply IH. tauto.
Qed.

Lemma find_first (l1 l2 : list Comment.t) (c : Comment.t) :
  ~ In cid (map Comment.id l1) -> Comment.id c = cid ->
  find (fun comment => String.eqb (Comment.id comment) cid) (l1 ++ c :: l2) = Some c.
Proof.
  intros Hn Hc. induction l1 as [|d l1 IH]; simpl in *.
  - now rewrite Hc, String.eqb_refl.
  - destruct (String.eqb (Comment.id d) cid) eqn:E.
    + apply String.eqb_eq in E. tauto.
    + apply IH. tauto.
Qed.

Lemma filter_others (cs : list Comment.t) :
  ~ In cid (map Comment.id cs) ->
  filter (fun c => negb (String.eqb (Comment.id c) cid)) cs = cs.
Proof.
  induction cs as [|c cs IH]; simpl; [reflexivity|]. intros H.
  destruct (String.eqb (Comment.id c) cid) eqn:E; simpl.
  - apply String.eqb_eq in E. tauto.
  - f_equal. apply IH. tauto.
Qed.

(** Where identifiers are unique, the filter of the route drops the one
    comment of the identifier and keeps the others in place. *)
Lemma filter_drops_one (l1 l2 : list Comment.t) (c : Comment.t) :
  NoDup (map Comment.id (l1 ++ c :: l2)) -> Comment.id c = cid ->
  ~ In cid (map Comment.id l1)
  /\ filter (fun c => negb (String.eqb (Comment.id c) cid)) (l1 ++ c :: l2)
     = l1 ++ l2.
Proof.
  intros Hd Hc. rewrite map_app in Hd. simpl in Hd.
  apply NoDup_remove_2 in Hd. rewrite Hc in Hd.
  assert (H1 : ~ In cid (map Comment.id l1))
    by (intros H; apply Hd, in_or_app; auto).
  assert (H2 : ~ In cid (map Comment.id l2))
    by (intros H; apply Hd, in_or_app; auto).
  split; [exact H1|].
  rewrite filter_app. simpl. rewrite Hc, String.eqb_refl. simpl.
  now rewrite !filter_others.
Qed.

End CommentArrays.

Section DeleteComment.

Variables (id cid caller : string) (w : World) (p : Coffee.t).
Variable cs : list Comment.t.
Hypothesis stored : lookup id (coffees w) = Some p.
Hypothesis array : Coffee.comments p = Some cs.

Lemma delete_comment_absent :
  rejects w = false -> ~ In cid (map Comment.id cs) ->
  router.delete_comment id cid caller w
  = (json 404 (Msg "Comment does not exist"), called (FindCoffee id) w).
Proof.
  intros Hr Hn. unfold router.delete_comment. unfold_handler.
  rewrite Hr. simpl. rewrite stored. simpl. rewrite array. simpl.
  now rewrite (find_absent cid cs Hn).
Qed.

Lemma delete_comment_of_another (l1 l2 : list Comment.t) (c : Comment.t) :
  rejects w = false ->
  cs = l1 ++ c :: l2 -> ~ In cid (map Comment.id l1) ->
  Comment.id c = cid -> Comment.user c <> caller ->
  router.delete_comment id cid caller w
  = (json 401 (Msg "User not authorized"), called (FindCoffee id) w).
Proof.
  intros Hr Hl Hn Hc Hu. apply String.eqb_neq in Hu.
  unfold router.delete_comment. unfold_handler.
  rewrite Hr. simpl. rewrite stored. simpl. rewrite array. simpl.
  rewrite Hl, (find_first cid l1 l2 c Hn Hc), Hu. reflexivity.
Qed.

Lemma delete_comment_removes (l1 l2 : list Comment.t) (c : Comment.t) :
  accepted 2 w = true ->
  cs = l1 ++ c :: l2 -> NoDup (map Comment.id cs) ->
  Comment.id c = cid -> Comment.user c = caller ->
  fst (router.delete_comment id cid caller w) = json 200 (Comments (l1 ++ l2))
  /\ lookup id (coffees (snd (router.delete_comment id cid caller w)))
     = Some (Coffee.set_comments p (l1 ++ l2)).
Proof.
  intros Ha Hl Hd Hc Hu. apply String.eqb_eq in Hu.
  destruct (accepted_next _ (FindCoffee id) _ Ha) as [Hr Ha1].
  destruct (accepted_next _ (Save id) _ Ha1) as [Hr1 _].
  rewrite Hl in Hd. destruct (filter_drops_one cid l1 l2 c Hd Hc) as [Hn Hf].
  unfold router.delete_comment. unfold_handler.
  rewrite Hr. simpl. rewrite stored. simpl. rewrite array. simpl.
  rewrite Hl, (find_first cid l1 l2 c Hn Hc), Hu, Hf. simpl.
  unfold rejects in Hr1 |- *. simpl in Hr1 |- *. rewrite Hr1. simpl.
  split; [reflexivity|].
  rewrite (lookup_id _ _ _ stored).
  apply lookup_saved with (p := p); [exact stored|].
  exact (lookup_id _ _ _ stored).
Qed.

End DeleteComment.

(** C6: on a stored record whose comments carry distinct identifiers (I4),
    with the store answering: the removal of a comment identifier that no
    comment has is answered 404 "Comment does not exist"; the removal of a
    comment written by another user is answered 401 "User not authorized";
    both leave the records as they are; the removal of a comment by its
    author is answered 200 with the comments without that one entry, the
    others unchanged and in their order, and that is what the store then
    holds. *)
Theorem remove_comment_removes_one
  (id cid caller : string) (w : World) (p : Coffee.t) (cs : list Comment.t) :
  lookup id (coffees w) = Some p -> Coffee.comments p = Some cs ->
  NoDup (map Comment.id cs) -> accepted 2 w = true ->
  (~ In cid (map Comment.id cs) ->
   fst (router.delete_comment id cid caller w)
   = json 404 (Msg "Comment does not exist")
   /\ coffees (snd (router.delete_comment id cid caller w)) = coffees w)
  /\ (forall l1 c l2,
        cs = l1 ++ c :: l2 -> Comment.id c = cid ->
        (Comment.user c <> caller ->
         fst (router.delete_comment id cid caller w)
         = json 401 (Msg "User not authorized")
         /\ coffees (snd (router.delete_comment id cid caller w)) = coffees w)
        /\ (Comment.user c = caller ->
            fst (router.delete_comment id cid caller w)
            = json 200 (Comments (l1 ++ l2))
            /\ lookup id (coffees (snd (router.delete_comment id cid caller w)))
               = Some (Coffee.set_comments p (l1 ++ l2)))).
Proof.
  intros Hp Hcs Hd Ha.
  destruct (accepted_next _ (FindCoffee id) _ Ha) as [Hr _].
  split.
  - intros Hn.
    rewrite (delete_comment_absent id cid caller w p cs Hp Hcs Hr Hn).
    split; reflexivity.
  - intros l1 c l2 Hl Hc. split; intros Hu.
    + assert (Hn : ~ In cid (map Comment.id l1)).
      { rewrite Hl in Hd. exact (proj1 (filter_drops_one cid l1 l2 c Hd Hc)). }
      rewrite (delete_comment_of_another id cid caller w p cs Hp Hcs
                 l1 l2 c Hr Hl Hn Hc Hu).
      split; reflexivity.
    + exact (delete_comment_removes id cid caller w p cs Hp Hcs
               l1 l2 c Ha Hl Hd Hc Hu).
Qed.

Lemma remove_comment_removes_one_witness :
  let c1 := Sample.comment "c1" Sample.ann "4" in
  let c2 := Sample.comment "c2" Sample.bob "5" in
  let c3 := Sample.comment "c3" Sample.ann "3" in
  let w := Sample.world [Sample.shop [] [c1; c2; c3]] in
  fst (router.delete_comment Sample.shop_id "c9" Sample.bob w)
  = json 404 (Msg "Comment does not exist")
  /\ fst (router.delete_comment Sample.shop_id "c2" Sample.ann w)
     = json 401 (Msg "User not authorized")
  /\ fst (router.delete_comment Sample.shop_id "c2" Sample.bob w)
     = json 200 (Comments [c1; c3]).
Proof.
  intros c1 c2 c3 w.
  assert (Hd : NoDup (map Comment.id [c1; c2; c3])).
  { simpl. repeat constructor; simpl; intuition discriminate. }
  split; [|split].
  - destruct (remove_comment_removes_one Sample.shop_id "c9" Sample.bob w _
                [c1; c2; c3] eq_refl eq_refl Hd eq_refl) as [H _].
    apply H. simpl. intuition discriminate.
  - destruct (remove_comment_removes_one Sample.shop_id "c2" Sample.ann w _
                [c1; c2; c3] eq_refl eq_refl Hd eq_refl) as [_ H].
    destruct (H [c1] c2 [c3] eq_refl eq_refl) as [H401 _].
    apply H401. discriminate.
  - destruct (remove_comment_removes_one Sample.shop_id "c2" Sample.bob w _
                [c1; c2; c3] eq_refl eq_refl Hd eq_refl) as [_ H].
    destruct (H [c1] c2 [c3] eq_refl eq_refl) as [_ H200].
    apply H200. reflexivity.
Defined.

Section PostComment.

Variables (id caller : string) (text review : Located) (w : World).

Lemma post_comment_invalid :
  not_isEmpty text && not_isEmpty review = false ->
  status (fst (router.post_comment id caller text review w)) = 400
  /\ snd (router.post_comment id caller text review w) = w.
Proof.
  unfold router.post_comment.
  destruct (not_isEmpty text), (not_isEmpty review); simpl; intros H;
    try discriminate; split; reflexivity.
Qed.

Lemma post_comment_valid_status :
  not_isEmpty text = true -> not_isEmpty review = true ->
  In (status (fst (router.post_comment id caller text review w))) [200; 500].
Proof.
  intros Ht Hv. unfold router.post_comment. rewrite Ht, Hv. simpl.
  unfold_handler. unfold rejects, called. simpl.
  destruct (faults w) as [|[|] [|[|] [|[|] fs]]]; simpl; try tauto;
    (destruct (find _ (users w)); simpl; [|tauto]);
    (destruct (lookup id (coffees w)) as [c|]; simpl; [|tauto]);
    (destruct (Coffee.comments c); simpl; tauto).
Qed.

Lemma post_comment_prepends (u : User.t) (c : Coffee.t) (cs : list Comment.t) :
  not_isEmpty text = true -> not_isEmpty review = true ->
  find (fun x => String.eqb (User._id x) caller) (users w) = Some u ->
  lookup id (coffees w) = Some c -> Coffee.comments c = Some cs ->
  accepted 3 w = true ->
  let new := Comment.mk (hex 24 (Z.of_nat (oid w)) "") caller
                        (in_body text) (in_body review)
                        (User.name u) (User.avatar u) in
  fst (router.post_comment id caller text review w)
  = json 200 (Comments (new :: cs))
  /\ lookup id (coffees (snd (router.post_comment id caller text review w)))
     = Some (Coffee.set_comments c (new :: cs)).
Proof.
  intros Ht Hv Hu Hc Hcs Ha new.
  destruct (accepted_next _ (FindUser caller) _ Ha) as [Hr Ha1].
  destruct (accepted_next _ (FindCoffee id) _ Ha1) as [Hr1 Ha2].
  destruct (accepted_next _ (Save id) _ Ha2) as [Hr2 _].
  unfold router.post_comment. rewrite Ht, Hv. simpl.
  unfold_handler. rewrite Hr. simpl.
  unfold rejects in Hr1 |- *. simpl in Hr1 |- *. rewrite Hr1. simpl.
  rewrite Hu, Hc. simpl. rewrite Hcs. simpl.
  unfold rejects in Hr2. simpl in Hr2. rewrite Hr2. simpl.
  split; [reflexivity|].
  rewrite (lookup_id _ _ _ Hc).
  apply lookup_saved with (p := c); [exact Hc|].
  exact (lookup_id _ _ _ Hc).
Qed.

End PostComment.

(** What the validators ask of a field: a value in one of the five
    places at least, and no empty value in any of them. *)
Lemma not_isEmpty_places (f : Located) :
  let places := [in_body f; in_cookies f; in_headers f; in_params f;
                 in_query f] in
  not_isEmpty f = true <->
  (exists v, In v places /\ defined v = true)
  /\ (forall v, In v places -> defined v = true -> isEmpty v = false).
Proof.
  intros places. unfold not_isEmpty, instances. fold places.
  assert (F : forallb (fun v => negb (isEmpty v)) (filter defined places) = true
              <-> forall v, In v places -> defined v = true -> isEmpty v = false).
  { rewrite forallb_forall. split.
    - intros H v Hin Hd. specialize (H v). rewrite filter_In in H.
      apply negb_true_iff. auto.
    - intros H v Hin. apply filter_In in Hin. apply negb_true_iff.
      now apply H. }
  destruct (filter defined places) as [|v0 l0] eqn:E.
  - split.
    + simpl. rewrite andb_true_r. intros H. exfalso.
      assert (Hd : defined (in_body f) = false).
      { destruct (defined (in_body f)) eqn:D; [|reflexivity].
        assert (In (in_body f) (filter defined places))
          by (apply filter_In; split; [now left|exact D]).
        rewrite E in H0. destruct H0. }
      destruct (in_body f); simpl in *; discriminate.
    + intros [(v & Hin & Hd) _]. exfalso.
      assert (In v (filter defined places)) by (now apply filter_In).
      rewrite E in H. destruct H.
  - rewrite F. split.
    + intros H. split; [|exact H]. exists v0.
      assert (In v0 (filter defined places)) by (rewrite E; now left).
      now apply filter_In in H0.
    + intros [_ H]. exact H.
Qed.

(** C7, on the claim as stated: a review that does not parse as a number
    is accepted, and stored as it came. *)
Lemma review_that_is_no_number_is_accepted :
  JS.is_NaN (JS.Number (JS.str "abc")) = true
  /\ fst (router.post_comment Sample.shop_id Sample.bob
            (body_only (JS.str "nice")) (body_only (JS.str "abc"))
            (Sample.world [Sample.shop [] []]))
     = json 200 (Comments [Comment.mk "000000000000000000000000" Sample.bob
                             (JS.str "nice") (JS.str "abc") "Bob" "bob.png"]).
Proof. split; vm_compute; reflexivity. Qed.

(** C7, amended: a comment is answered 400, before the store is touched,
    exactly when a validator fails, that is when the text or the review
    has a value in none of the places the validators read (body, cookies,
    headers, route parameters, query) or an empty one in one of them; so
    it is whenever the text or the review of the body is there and empty.
    A review is not asked to parse as a number, and a text or a review
    that the body lacks passes when another place carries one. When the
    validators pass, the author and the record are stored and the store
    answers, the answer is 200 with the comments, the new one first, which
    carries the text and the review of the body as they came and the name
    and avatar the author has now; that is what the store then holds. *)
Theorem comment_is_checked_for_emptiness_only
  (id caller : string) (text review : Located) (w : World) :
  (forall f : Located,
      let places := [in_body f; in_cookies f; in_headers f; in_params f;
                     in_query f] in
      (not_isEmpty f = true <->
       (exists v, In v places /\ defined v = true)
       /\ (forall v, In v places -> defined v = true -> isEmpty v = false))
      /\ (defined (in_body f) = true -> isEmpty (in_body f) = true ->
          not_isEmpty f = false))
  /\ (not_isEmpty text && not_isEmpty review = false ->
      status (fst (router.post_comment id caller text review w)) = 400
      /\ snd (router.post_comment id caller text review w) = w)
  /\ (not_isEmpty text = true -> not_isEmpty review = true ->
      status (fst (router.post_comment id caller text review w)) <> 400
      /\ forall u c cs,
           find (fun x => String.eqb (User._id x) caller) (users w) = Some u ->
           lookup id (coffees w) = Some c -> Coffee.comments c = Some cs ->
           accepted 3 w = true ->
           exists cid,
             let new := Comment.mk cid caller (in_body text) (in_body review)
                                   (User.name u) (User.avatar u) in
             fst (router.post_comment id caller text review w)
             = json 200 (Comments (new :: cs))
             /\ lookup id (coffees (snd (router.post_comment id caller
                                           text review w)))
                = Some (Coffee.set_comments c (new :: cs))).
Proof.
  split; [|split].
  - intros f places. split; [apply not_isEmpty_places|].
    intros Hd He. destruct (not_isEmpty f) eqn:N; [|reflexivity].
    apply not_isEmpty_places in N. destruct N as [_ N].
    rewrite (N (in_body f)) in He; [discriminate|now left|exact Hd].
  - apply post_comment_invalid.
  - intros Ht Hv. split.
    + pose proof (post_comment_valid_status id caller text review w Ht Hv) as S.
      intros E. rewrite E in S. simpl in S. intuition discriminate.
    + intros u c cs Hu Hc Hcs Ha.
      exists (hex 24 (Z.of_nat (oid w)) "").
      exact (post_comment_prepends id caller text review w u c cs
               Ht Hv Hu Hc Hcs Ha).
Qed.

Lemma comment_is_checked_for_emptiness_only_witness :
  let w := Sample.world [Sample.shop [] [Sample.comment "c1" Sample.ann "4"]] in
  let in_query_only v :=
    located JS.undefined JS.undefined JS.undefined JS.undefined v in
  status (fst (router.post_comment Sample.shop_id Sample.bob
                 (body_only (JS.str "")) (body_only (JS.str "5")) w)) = 400
  /\ status (fst (router.post_comment Sample.shop_id Sample.bob
                    (located (JS.str "") JS.undefined JS.undefined
                             JS.undefined (JS.str "hi"))
                    (body_only (JS.str "5")) w)) = 400
  /\ (exists cid,
         fst (router.post_comment Sample.shop_id Sample.bob
                (body_only (JS.str "nice")) (body_only (JS.str "5")) w)
         = json 200 (Comments [Comment.mk cid Sample.bob (JS.str "nice")
                                 (JS.str "5") "Bob" "bob.png";
                               Sample.comment "c1" Sample.ann "4"]))
  /\ (exists cid,
         fst (router.post_comment Sample.shop_id Sample.bob
                (in_query_only (JS.str "hi")) (in_query_only (JS.str "5")) w)
         = json 200 (Comments [Comment.mk cid Sample.bob JS.undefined
                                 JS.undefined "Bob" "bob.png";
                               Sample.comment "c1" Sample.ann "4"])).
Proof.
  intros w in_query_only. split; [|split; [|split]].
  - apply (comment_is_checked_for_emptiness_only Sample.shop_id Sample.bob
             (body_only (JS.str "")) (body_only (JS.str "5")) w).
    reflexivity.
  - apply (comment_is_checked_for_emptiness_only Sample.shop_id Sample.bob
             (located (JS.str "") JS.undefined JS.undefined JS.undefined
                      (JS.str "hi"))
             (body_only (JS.str "5")) w).
    reflexivity.
  - destruct (comment_is_checked_for_emptiness_only Sample.shop_id Sample.bob
                (body_only (JS.str "nice")) (body_only (JS.str "5")) w)
      as (_ & _ & H).
    destruct (H eq_refl eq_refl) as [_ H1].
    destruct (H1 (User.mk Sample.bob "Bob" "bob.png") _ _
                 eq_refl eq_refl eq_refl eq_refl) as (cid & R & _).
    exists cid. exact R.
  - destruct (comment_is_checked_for_emptiness_only Sample.shop_id Sample.bob
                (in_query_only (JS.str "hi")) (in_query_only (JS.str "5")) w)
      as (_ & _ & H).
    destruct (H eq_refl eq_refl) as [_ H1].
    destruct (H1 (User.mk Sample.bob "Bob" "bob.png") _ _
                 eq_refl eq_refl eq_refl eq_refl) as (cid & R & _).
    exists cid. exact R.
Defined.

(* ------------------------------------------------------------------ *)
(** * The list route *)

(** The keys of the two tables of GET /. *)
Lemma table_keys (k : string) :
  ~ In k ["highest"; "loweset"; "most"; "least"] ->
  JS.own router.label k = None /\ JS.own router.labelValue k = None.
Proof.
  intros H. simpl in H.
  assert (E : forall s, s <> k -> String.eqb s k = false)
    by (intros s; apply String.eqb_neq).
  unfold router.label, router.labelValue. cbn [JS.own].
  rewrite !E by intuition. split; reflexivity.
Qed.

(** C5, on the claim as stated: a sort key that names no sort mode is
    answered 200 with the records. *)
Lemma unknown_sort_key_is_answered :
  JS.own router.label "rating" = None
  /\ fst (router.get_root (fun _ _ docs => docs) (Some "rating")
            (Sample.world [Sample.shop [] []]))
     = json 200 (Docs [Sample.shop [] []]).
Proof. split; reflexivity. Qed.

(** C5, amended: the list route validates nothing. Whatever the sort key,
    it makes one query to the store and answers 200 with the records as
    the store orders them for the entry it was given, or 500 when the store
    rejects the query, never 400. For a sort key that is no key of the
    tables of the route (which are highest, loweset, most and least) and
    no property every object has, and for an absent sort key, the label
    and the value of that entry are both [undefined]. *)
Theorem list_never_rejects_a_sort_key
  (sort : JS.value -> JS.value -> list Coffee.t -> list Coffee.t)
  (sortby : option string) (w : World) :
  let sortbyLabel := JS.get router.label sortby in
  let sortValue := JS.get router.labelValue sortby in
  router.get_root sort sortby w
  = (if rejects w then ServerError
     else json 200 (Docs (sort sortbyLabel sortValue (coffees w))),
     called (FindSorted sortbyLabel sortValue) w)
  /\ status (fst (router.get_root sort sortby w)) <> 400
  /\ (match sortby with
      | Some k => ~ In k ["highest"; "loweset"; "most"; "least"]
                  /\ ~ In k JS.Object_prototype
      | None => True
      end ->
      sortbyLabel = JS.undefined /\ sortValue = JS.undefined).
Proof.
  intros sortbyLabel sortValue.
  assert (R : router.get_root sort sortby w
              = (if rejects w then ServerError
                 else json 200 (Docs (sort sortbyLabel sortValue (coffees w))),
                 called (FindSorted sortbyLabel sortValue) w)).
  { unfold router.get_root. unfold_handler.
    fold sortbyLabel sortValue. destruct (rejects w); reflexivity. }
  split; [exact R|]. split.
  - rewrite R. destruct (rejects w); simpl; discriminate.
  - subst sortbyLabel sortValue. destruct sortby as [k|].
    + intros [Hk Hp]. destruct (table_keys k Hk) as [E1 E2].
      unfold JS.get. rewrite E1, E2.
      assert (M : JS.mem k JS.Object_prototype = false).
      { unfold JS.mem. destruct (existsb _ _) eqn:X; [|reflexivity].
        apply existsb_exists in X. destruct X as (s & Hs & Es).
        apply String.eqb_eq in Es. subst s. tauto. }
      rewrite M. split; reflexivity.
    + intros _. split; reflexivity.
Qed.

Lemma list_never_rejects_a_sort_key_witness :
  JS.get router.label (Some "lowest") = JS.undefined
  /\ JS.get router.labelValue (Some "lowest") = JS.undefined.
Proof.
  apply (list_never_rejects_a_sort_key (fun _ _ docs => docs)
           (Some "lowest") (Sample.world [])).
  simpl. split; intuition discriminate.
Defined.

(* ------------------------------------------------------------------ *)
(** * The routes of one record *)

Section GetId.

Variables (id : string) (w : World).

(** The first thing GET /:id does is to query the store. *)
Lemma get_id_log :
  exists rest, log (snd (router.get_id id w)) = log w ++ FindCoffee id :: rest.
Proof.
  unfold router.get_id. unfold_handler.
  destruct (rejects w); simpl; [now exists []|].
  destruct (lookup id (coffees w)) as [c|]; simpl; [|now exists []].
  destruct (negb (JS.matches_hex24 id)); simpl; [now exists []|].
  unfold rejects, called; simpl.
  destruct (tl (faults w)) as [|[|] fs]; simpl;
    rewrite <- app_assoc; simpl; eexists; reflexivity.
Qed.

Lemma get_id_missing :
  lookup id (coffees w) = None -> fst (router.get_id id w) = ServerError.
Proof.
  intros H. unfold router.get_id. unfold_handler.
  destruct (rejects w); simpl; [reflexivity|]. now rewrite H.
Qed.

Lemma get_id_refreshes (c : Coffee.t) (cs : list Comment.t) :
  lookup id (coffees w) = Some c -> Coffee.comments c = Some cs ->
  JS.matches_hex24 id = true -> accepted 2 w = true ->
  fst (router.get_id id w) = json 200 (Doc (refreshed c cs))
  /\ lookup id (coffees (snd (router.get_id id w))) = Some (refreshed c cs).
Proof.
  intros Hc Hcs Hid Ha.
  destruct (accepted_next _ (FindCoffee id) _ Ha) as [Hr Ha1].
  destruct (accepted_next _ (Save id) _ Ha1) as [Hr1 _].
  unfold router.get_id. unfold_handler.
  rewrite Hr. simpl. rewrite Hc. simpl. rewrite Hcs, Hid. simpl.
  unfold rejects in Hr1 |- *. simpl in Hr1 |- *. rewrite Hr1. simpl.
  split; [reflexivity|].
  rewrite (lookup_id _ _ _ Hc).
  apply lookup_saved with (p := c); [exact Hc|].
  exact (lookup_id _ _ _ Hc).
Qed.

(** GET /:id answers 200 only when the identifier is well formed and the
    store has accepted the lookup and the save. *)
Lemma get_id_success :
  status (fst (router.get_id id w)) = 200 ->
  JS.matches_hex24 id = true /\ accepted 2 w = true.
Proof.
  unfold router.get_id. unfold_handler. unfold accepted, rejects, called.
  simpl.
  destruct (faults w) as [|[|] [|[|] fs]]; simpl; try discriminate;
    (destruct (lookup id (coffees w)) as [c|]; simpl; [|discriminate]);
    (destruct (JS.matches_hex24 id); simpl; [|discriminate]);
    intros H; try discriminate H; split; reflexivity.
Qed.

End GetId.

Section DeleteId.

Variables (id caller : string) (w : World).

(** The first thing DELETE /:id does is to query the store. *)
Lemma delete_id_log :
  exists rest,
    log (snd (router.delete_id id caller w)) = log w ++ FindCoffee id :: rest.
Proof.
  unfold router.delete_id. unfold_handler.
  destruct (rejects w); simpl; [now exists []|].
  destruct (negb (JS.matches_hex24 id)); simpl; [now exists []|].
  destruct (lookup id (coffees w)) as [c|]; simpl; [|now exists []].
  destruct (negb (String.eqb (Coffee.user c) caller)); simpl; [now exists []|].
  unfold rejects, called; simpl.
  destruct (tl (faults w)) as [|[|] fs]; simpl;
    rewrite <- app_assoc; simpl; eexists; reflexivity.
Qed.

Lemma delete_id_missing :
  lookup id (coffees w) = None -> rejects w = false ->
  fst (router.delete_id id caller w) = json 404 (Msg "Coffee not found").
Proof.
  intros H Hr. unfold router.delete_id. unfold_handler.
  rewrite Hr. simpl. rewrite H. simpl.
  now destruct (negb (JS.matches_hex24 id)).
Qed.

End DeleteId.

(** C3 (as the code has it): whatever the identifier, well formed or not,
    GET /:id and DELETE /:id first query the store with it; and GET /:id
    on an identifier that matches no record is answered 500 "Server
    Error", where DELETE /:id, once the store has answered, is answered
    404 "Coffee not found". *)
Theorem store_is_queried_before_the_identifier_is_checked
  (id caller : string) (w : World) :
  (exists rest,
      log (snd (router.get_id id w)) = log w ++ FindCoffee id :: rest)
  /\ (exists rest,
         log (snd (router.delete_id id caller w))
         = log w ++ FindCoffee id :: rest)
  /\ (lookup id (coffees w) = None ->
      fst (router.get_id id w) = ServerError
      /\ (rejects w = false ->
          fst (router.delete_id id caller w)
          = json 404 (Msg "Coffee not found"))).
Proof.
  split; [apply get_id_log|]. split; [apply delete_id_log|].
  intros H. split; [exact (get_id_missing id w H)|].
  exact (delete_id_missing id caller w H).
Qed.

Lemma store_is_queried_before_the_identifier_is_checked_witness :
  JS.matches_hex24 Sample.shop_id = true
  /\ fst (router.get_id Sample.shop_id (Sample.world []))
     = json 500 (Send "Server Error")
  /\ fst (router.delete_id Sample.shop_id Sample.ann (Sample.world []))
     = json 404 (Msg "Coffee not found").
Proof.
  split; [reflexivity|].
  destruct (store_is_queried_before_the_identifier_is_checked
              Sample.shop_id Sample.ann (Sample.world []))
    as (_ & _ & H).
  destruct (H eq_refl) as [G D].
  split; [exact G | exact (D eq_refl)].
Defined.

(** C1 (as the code has it): GET /:id on a record whose comments array is
    empty saves and sends the record with the average "NaN", a string, and
    the total 0. *)
Theorem average_of_no_comments_is_NaN (id : string) (w : World) (c : Coffee.t) :
  lookup id (coffees w) = Some c -> Coffee.comments c = Some [] ->
  JS.matches_hex24 id = true -> accepted 2 w = true ->
  exists c',
    fst (router.get_id id w) = json 200 (Doc c')
    /\ lookup id (coffees (snd (router.get_id id w))) = Some c'
    /\ Coffee.averageReview c' = JS.str "NaN"
    /\ Coffee.totalReview c' = JS.number JS.zero.
Proof.
  intros Hc Hcs Hid Ha. exists (refreshed c []).
  destruct (get_id_refreshes id w c [] Hc Hcs Hid Ha) as [R S].
  repeat split; assumption || reflexivity.
Qed.

Lemma average_of_no_comments_is_NaN_witness :
  exists c',
    fst (router.get_id Sample.shop_id (Sample.world [Sample.shop [] []]))
    = json 200 (Doc c')
    /\ Coffee.averageReview c' = JS.str "NaN".
Proof.
  destruct (average_of_no_comments_is_NaN Sample.shop_id
              (Sample.world [Sample.shop [] []]) (Sample.shop [] [])
              eq_refl eq_refl eq_refl eq_refl) as (c' & R & _ & A & _).
  exists c'. split; assumption.
Defined.

(** C10: whenever GET /:id on a stored record with a comments array is
    answered 200, the record it has saved and sends has, as its average,
    the string that [toFixed(2)] makes of the sum of the reviews divided by
    their count, which is no number, and, as its total, that count, which
    is one. *)
Theorem average_is_saved_as_a_string
  (id : string) (w : World) (c : Coffee.t) (cs : list Comment.t) :
  lookup id (coffees w) = Some c -> Coffee.comments c = Some cs ->
  status (fst (router.get_id id w)) = 200 ->
  exists c',
    fst (router.get_id id w) = json 200 (Doc c')
    /\ lookup id (coffees (snd (router.get_id id w))) = Some c'
    /\ Coffee.averageReview c'
       = JS.str (JS.toFixed2 (JS.div (totalReviewNumber cs) (JS.length cs)))
    /\ (forall x, Coffee.averageReview c' <> JS.number x)
    /\ Coffee.totalReview c' = JS.number (JS.length cs).
Proof.
  intros Hc Hcs Hok. destruct (get_id_success id w Hok) as [Hid Ha].
  exists (refreshed c cs).
  destruct (get_id_refreshes id w c cs Hc Hcs Hid Ha) as [R S].
  repeat split; try assumption; try reflexivity.
  intros x. discriminate.
Qed.

Lemma average_is_saved_as_a_string_witness :
  let cs := [Sample.comment "c1" Sample.ann "4";
             Sample.comment "c2" Sample.bob "5"] in
  JS.toFixed2 (JS.div (totalReviewNumber cs) (JS.length cs)) = "4.50"
  /\ exists c',
       fst (router.get_id Sample.shop_id (Sample.world [Sample.shop [] cs]))
       = json 200 (Doc c')
       /\ Coffee.averageReview c' = JS.str "4.50"
       /\ Coffee.totalReview c' = JS.number (JS.of_Z 2).
Proof.
  intros cs. split; [vm_compute; reflexivity|].
  destruct (average_is_saved_as_a_string Sample.shop_id
              (Sample.world [Sample.shop [] cs]) (Sample.shop [] cs) cs
              eq_refl eq_refl eq_refl) as (c' & R & _ & A & _ & T).
  exists c'. split; [exact R|]. split; [exact A | exact T].
Defined.

(* ------------------------------------------------------------------ *)
(** * What each route does to the stored records *)

Ltac run_handler :=
  unfold_handler; unfold insert, rejects, called; simpl.

(** The request was not answered 200 and the records are as they were. *)
Ltac stays := left; split; [discriminate|reflexivity].

(** The like [indexOf] and [splice] take out is the first of the user. *)
Lemma splice_first_like (u : string) (l : list Like.t) :
  In u (map Like.user l) ->
  exists l1 x l2,
    l = l1 ++ x :: l2 /\ Like.user x = u /\ ~ In u (map Like.user l1)
    /\ JS.splice1 l (JS.indexOf (map Like.user l) u) = l1 ++ l2.
Proof.
  intros Hin. destruct (first_like u l Hin) as (l1 & x & l2 & Hl & Hx & Hn).
  exists l1, x, l2. repeat split; auto.
  rewrite Hl at 2. rewrite map_app. simpl. rewrite Hx.
  rewrite indexOf_first by exact Hn.
  rewrite length_map, Hl. apply splice1_at.
Qed.

Section Effects.

Variable w : World.

Lemma get_id_effect (id : string) :
  let r := router.get_id id w in
  (status (fst r) <> 200 /\ coffees (snd r) = coffees w)
  \/ (status (fst r) = 200
      /\ exists c a t,
           lookup id (coffees w) = Some c
           /\ fst r = json 200 (Doc (Coffee.set_totalReview
                                       (Coffee.set_averageReview c a) t))
           /\ coffees (snd r)
              = saved (Coffee.set_totalReview (Coffee.set_averageReview c a) t)
                      (coffees w)).
Proof.
  unfold router.get_id. run_handler.
  destruct (faults w) as [|[|] [|[|] fs]]; simpl;
    try (left; split; [discriminate|reflexivity]);
    (destruct (lookup id (coffees w)) as [c|]; simpl;
     [|left; split; [discriminate|reflexivity]]);
    (destruct (JS.matches_hex24 id); simpl;
     [|left; split; [discriminate|reflexivity]]);
    try (left; split; [discriminate|reflexivity]);
    right; (split; [reflexivity|]); do 3 eexists; repeat split; reflexivity.
Qed.

Lemma delete_id_effect (id caller : string) :
  let r := router.delete_id id caller w in
  (status (fst r) <> 200 /\ coffees (snd r) = coffees w)
  \/ (status (fst r) = 200
      /\ exists p,
           lookup id (coffees w) = Some p /\ Coffee.user p = caller
           /\ JS.matches_hex24 id = true
           /\ coffees (snd r) = removed id (coffees w)).
Proof.
  unfold router.delete_id. run_handler.
  destruct (faults w) as [|[|] [|[|] fs]]; simpl; try stays;
    (destruct (JS.matches_hex24 id) eqn:Hid; simpl; [|stays]);
    (destruct (lookup id (coffees w)) as [p|] eqn:Hp; simpl; [|stays]);
    (destruct (String.eqb (Coffee.user p) caller) eqn:Hu; simpl; [|stays]);
    try stays;
    right; (split; [reflexivity|]); exists p;
    rewrite (lookup_id _ _ _ Hp); apply String.eqb_eq in Hu;
    repeat split; auto.
Qed.

Lemma put_like_changes (id u : string) :
  let r := router.put_like id u w in
  (status (fst r) <> 200 /\ coffees (snd r) = coffees w)
  \/ (status (fst r) = 200
      /\ exists p,
           lookup id (coffees w) = Some p
           /\ ~ In u (map Like.user (Coffee.likes p))
           /\ coffees (snd r)
              = saved (Coffee.set_likes p (Like.mk u :: Coffee.likes p))
                      (coffees w)).
Proof.
  unfold router.put_like. run_handler.
  destruct (faults w) as [|[|] [|[|] fs]]; simpl; try stays;
    (destruct (lookup id (coffees w)) as [p|] eqn:Hp; simpl; [|stays]);
    (destruct (0 <? router.likes_of u (Coffee.likes p))%nat eqn:Hu; simpl;
     [stays|]);
    try stays;
    right; (split; [reflexivity|]); exists p;
    (repeat split; auto);
    intros Hin; apply (present_likes_of u p) in Hin; congruence.
Qed.

Lemma put_unlike_changes (id u : string) :
  let r := router.put_unlike id u w in
  (status (fst r) <> 200 /\ coffees (snd r) = coffees w)
  \/ (status (fst r) = 200
      /\ exists p l1 x l2,
           lookup id (coffees w) = Some p
           /\ Coffee.likes p = l1 ++ x :: l2 /\ Like.user x = u
           /\ ~ In u (map Like.user l1)
           /\ coffees (snd r) = saved (Coffee.set_likes p (l1 ++ l2))
                                      (coffees w)).
Proof.
  unfold router.put_unlike. run_handler.
  destruct (faults w) as [|[|] [|[|] fs]]; simpl; try stays;
    (destruct (lookup id (coffees w)) as [p|] eqn:Hp; simpl; [|stays]);
    (destruct (router.likes_of u (Coffee.likes p) =? 0)%nat eqn:Hc; simpl;
     [stays|]);
    try stays;
    right; (split; [reflexivity|]);
    apply Nat.eqb_neq in Hc; rewrite likes_of_count in Hc;
    apply Nat.neq_0_lt_0, (count_occ_In string_dec) in Hc;
    destruct (splice_first_like u _ Hc) as (l1 & x & l2 & Hl & Hx & Hn & Hs);
    rewrite Hs; exists p, l1, x, l2; repeat split; auto.
Qed.

Lemma post_comment_effect (id caller : string) (text review : Located) :
  let r := router.post_comment id caller text review w in
  (status (fst r) <> 200 /\ coffees (snd r) = coffees w)
  \/ (status (fst r) = 200
      /\ exists p cs u,
           lookup id (coffees w) = Some p /\ Coffee.comments p = Some cs
           /\ find (fun x => String.eqb (User._id x) caller) (users w) = Some u
           /\ coffees (snd r)
              = saved (Coffee.set_comments p
                         (Comment.mk (hex 24 (Z.of_nat (oid w)) "") caller
                                     (in_body text) (in_body review)
                                     (User.name u) (User.avatar u)
                          :: cs))
                      (coffees w)).
Proof.
  unfold router.post_comment.
  destruct (not_isEmpty text), (not_isEmpty review); simpl; try stays.
  run_handler.
  destruct (faults w) as [|[|] [|[|] [|[|] fs]]]; simpl; try stays;
    (destruct (find _ (users w)) as [u|] eqn:Hu; simpl; [|stays]);
    (destruct (lookup id (coffees w)) as [p|] eqn:Hp; simpl; [|stays]);
    (destruct (Coffee.comments p) as [cs|] eqn:Hcs; simpl; [|stays]);
    try stays;
    right; (split; [reflexivity|]); exists p, cs, u; repeat split; auto.
Qed.

Lemma delete_comment_effect (id cid caller : string) :
  let r := router.delete_comment id cid caller w in
  (status (fst r) <> 200 /\ coffees (snd r) = coffees w)
  \/ (status (fst r) = 200
      /\ exists p cs c,
           lookup id (coffees w) = Some p /\ Coffee.comments p = Some cs
           /\ In c cs /\ Comment.id c = cid /\ Comment.user c = caller
           /\ coffees (snd r)
              = saved (Coffee.set_comments p
                         (filter (fun c => negb (String.eqb (Comment.id c) cid))
                                 cs))
                      (coffees w)).
Proof.
  unfold router.delete_comment. run_handler.
  destruct (faults w) as [|[|] [|[|] fs]]; simpl; try stays;
    (destruct (lookup id (coffees w)) as [p|] eqn:Hp; simpl; [|stays]);
    (destruct (Coffee.comments p) as [cs|] eqn:Hcs; simpl; [|stays]);
    (destruct (find (fun comment => String.eqb (Comment.id comment) cid) cs)
       as [c|] eqn:Hc; simpl; [|stays]);
    (destruct (String.eqb (Comment.user c) caller) eqn:Hu; simpl; [|stays]);
    try stays;
    right; (split; [reflexivity|]); exists p, cs, c;
    apply find_some in Hc; destruct Hc as [Hin Hid];
    apply String.eqb_eq in Hid; apply String.eqb_eq in Hu;
    repeat split; auto.
Qed.

Lemma post_root_effect (caller : string) (text : Located)
                        (address suburb name : JS.value) :
  let r := router.post_root caller text address suburb name w in
  (status (fst r) <> 200 /\ coffees (snd r) = coffees w)
  \/ (exists u,
         let doc := new_Coffee (hex 24 (Z.of_nat (oid w)) "") (in_body text)
                               address suburb name (User.avatar u) caller in
         find (fun x => String.eqb (User._id x) caller) (users w) = Some u
         /\ not_isEmpty text = true
         /\ lookup (Coffee._id doc) (coffees w) = None
         /\ fst r = json 200 (Doc doc)
         /\ coffees (snd r) = coffees w ++ [doc]).
Proof.
  unfold router.post_root.
  destruct (not_isEmpty text) eqn:Ht; simpl; [|stays].
  run_handler.
  destruct (faults w) as [|[|] [|[|] fs]]; simpl; try stays;
    (destruct (find _ (users w)) as [u|] eqn:Hu; simpl; [|stays]);
    (destruct (lookup (hex 24 (Z.of_nat (oid w)) "") (coffees w))
       as [d|] eqn:Hd; simpl; [stays|]);
    try stays;
    right; exists u; repeat split; auto.
Qed.

Lemma get_root_effect sort (sortby : option string) :
  coffees (snd (router.get_root sort sortby w)) = coffees w.
Proof.
  unfold router.get_root. run_handler.
  destruct (faults w) as [|[|] fs]; reflexivity.
Qed.

End Effects.

(* ------------------------------------------------------------------ *)
(** * Lookups in a collection that was written to *)

Section Collections.

Variables (l : list Coffee.t) (doc : Coffee.t).

Lemma lookup_in (id : string) (p : Coffee.t) :
  lookup id l = Some p -> In p l.
Proof. unfold lookup. intros H. now apply find_some in H. Qed.

Lemma lookup_saved_same (p : Coffee.t) :
  lookup (Coffee._id doc) l = Some p ->
  lookup (Coffee._id doc) (saved doc l) = Some doc.
Proof. intros H. now apply lookup_saved with (p := p). Qed.

Lemma lookup_saved_other (id : string) :
  id <> Coffee._id doc -> lookup id (saved doc l) = lookup id l.
Proof.
  intros Hn. unfold lookup, saved.
  induction l as [|d l' IH]; simpl; [reflexivity|].
  destruct (String.eqb (Coffee._id d) (Coffee._id doc)) eqn:E.
  - apply String.eqb_eq in E.
    assert (F : String.eqb (Coffee._id doc) id = false)
      by (apply String.eqb_neq; congruence).
    rewrite F, E, F. exact IH.
  - destruct (String.eqb (Coffee._id d) id); [reflexivity|exact IH].
Qed.

Lemma lookup_removed_same (id : string) : lookup id (removed id l) = None.
Proof.
  unfold lookup, removed.
  induction l as [|d l' IH]; simpl; [reflexivity|].
  destruct (String.eqb (Coffee._id d) id) eqn:E; simpl; [exact IH|].
  now rewrite E.
Qed.

Lemma lookup_removed_other (id id' : string) :
  id' <> id -> lookup id' (removed id l) = lookup id' l.
Proof.
  intros Hn. unfold lookup, removed.
  induction l as [|d l' IH]; simpl; [reflexivity|].
  destruct (String.eqb (Coffee._id d) id) eqn:E; simpl.
  - apply String.eqb_eq in E.
    assert (F : String.eqb (Coffee._id d) id' = false)
      by (apply String.eqb_neq; congruence).
    now rewrite F.
  - destruct (String.eqb (Coffee._id d) id'); [reflexivity|exact IH].
Qed.

Lemma lookup_inserted_old (id : string) (p : Coffee.t) :
  lookup id l = Some p -> lookup id (l ++ [doc]) = Some p.
Proof.
  unfold lookup. induction l as [|d l' IH]; simpl; [discriminate|].
  destruct (String.eqb (Coffee._id d) id); auto.
Qed.

Lemma lookup_inserted_new :
  lookup (Coffee._id doc) l = None ->
  lookup (Coffee._id doc) (l ++ [doc]) = Some doc.
Proof.
  unfold lookup. induction l as [|d l' IH]; simpl.
  - now rewrite String.eqb_refl.
  - destruct (String.eqb (Coffee._id d) (Coffee._id doc)); [discriminate|auto].
Qed.

End Collections.

(** With a store that answers every call, the next request meets one
    that does too. *)
Lemma answering_store sort (r : Request) (w : World) :
  faults w = [] -> faults (snd (handle sort r w)) = [].
Proof.
  intros H.
  destruct r; simpl;
    [ unfold router.post_root; destruct (not_isEmpty _); simpl; [|exact H]
    | unfold router.get_root
    | unfold router.get_id
    | unfold router.delete_id
    | unfold router.put_like
    | unfold router.put_unlike
    | unfold router.post_comment;
      destruct (not_isEmpty text), (not_isEmpty review); simpl; try exact H
    | unfold router.delete_comment ];
    run_handler; rewrite H; simpl;
    repeat match goal with
           | |- context [match ?x with _ => _ end] =>
               match x with
               | context [match _ with _ => _ end] => fail 1
               | _ => destruct x; simpl
               end
           end;
    try reflexivity.
Qed.

(* ------------------------------------------------------------------ *)
(** * What a request does to the stored records *)

Section HandleEffect.

Variable sort : JS.value -> JS.value -> list Coffee.t -> list Coffee.t.
Variables (r : Request) (w : World).

Let l := coffees w.
Let l' := coffees (snd (handle sort r w)).

(** A request leaves the records as they are, or saves one record over
    itself with one part changed, or removes one, or inserts one. *)
Lemma handle_effect :
  l' = l
  \/ (exists id p p',
         target r = Some id /\ lookup id l = Some p /\ l' = saved p' l
         /\ fixed p' = fixed p
         /\ (Coffee.likes p' = Coffee.likes p
             \/ (exists u, r = PUT_like id u
                           /\ ~ In u (map Like.user (Coffee.likes p))
                           /\ Coffee.likes p' = Like.mk u :: Coffee.likes p)
             \/ (exists u l1 x l2,
                    r = PUT_unlike id u /\ Like.user x = u
                    /\ Coffee.likes p = l1 ++ x :: l2
                    /\ Coffee.likes p' = l1 ++ l2))
         /\ (Coffee.comments p' = Coffee.comments p
             \/ (exists caller text review cs c,
                    r = POST_comment id caller text review
                    /\ Comment.user c = caller
                    /\ Coffee.comments p = Some cs
                    /\ Coffee.comments p' = Some (c :: cs))
             \/ (exists cid caller cs c,
                    r = DELETE_comment id cid caller
                    /\ In c cs /\ Comment.id c = cid /\ Comment.user c = caller
                    /\ Coffee.comments p = Some cs
                    /\ Coffee.comments p'
                       = Some (filter (fun c => negb (String.eqb (Comment.id c)
                                                                 cid)) cs)))
         /\ ((Coffee.averageReview p' = Coffee.averageReview p
              /\ Coffee.totalReview p' = Coffee.totalReview p)
             \/ r = GET_id id))
  \/ (exists id p,
         r = DELETE_id id (Coffee.user p) /\ JS.matches_hex24 id = true
         /\ lookup id l = Some p /\ l' = removed id l)
  \/ (exists doc caller text address suburb name,
         r = POST_root caller text address suburb name
         /\ Coffee.user doc = caller /\ Coffee.likes doc = []
         /\ lookup (Coffee._id doc) l = None /\ l' = l ++ [doc]).
Proof.
  subst l l'. destruct r; simpl.
  - destruct (post_root_effect w caller text address suburb name)
      as [[_ E]|(u & Hu & Ht & Hn & R & E)]; [left; exact E|].
    right; right; right.
    exists (new_Coffee (hex 24 (Z.of_nat (oid w)) "") (in_body text) address
                       suburb name (User.avatar u) caller).
    exists caller, text, address, suburb, name.
    split; [reflexivity|]. split; [reflexivity|]. split; [reflexivity|].
    split; [exact Hn|exact E].
  - left. apply get_root_effect.
  - destruct (get_id_effect w id) as [[_ E]|(_ & c & a & t & Hc & _ & E)];
      [left; exact E|].
    right; left.
    exists id, c, (Coffee.set_totalReview (Coffee.set_averageReview c a) t).
    split; [reflexivity|]. split; [exact Hc|]. split; [exact E|].
    split; [reflexivity|]. split; [left; reflexivity|].
    split; [left; reflexivity|]. right; reflexivity.
  - destruct (delete_id_effect w id caller)
      as [[_ E]|(_ & p & Hp & Hu & Hid & E)]; [left; exact E|].
    right; right; left. exists id, p. subst caller. repeat split; auto.
  - destruct (put_like_changes w id caller) as [[_ E]|(_ & p & Hp & Hn & E)];
      [left; exact E|].
    right; left.
    exists id, p, (Coffee.set_likes p (Like.mk caller :: Coffee.likes p)).
    split; [reflexivity|]. split; [exact Hp|]. split; [exact E|].
    split; [reflexivity|]. split.
    { right; left. exists caller. repeat split; auto. }
    split; [left; reflexivity|]. left; split; reflexivity.
  - destruct (put_unlike_changes w id caller)
      as [[_ E]|(_ & p & l1 & x & l2 & Hp & Hl & Hx & Hn & E)];
      [left; exact E|].
    right; left. exists id, p, (Coffee.set_likes p (l1 ++ l2)).
    split; [reflexivity|]. split; [exact Hp|]. split; [exact E|].
    split; [reflexivity|]. split.
    { right; right. exists caller, l1, x, l2. repeat split; auto. }
    split; [left; reflexivity|]. left; split; reflexivity.
  - destruct (post_comment_effect w id caller text review)
      as [[_ E]|(_ & p & cs & u & Hp & Hcs & Hu & E)]; [left; exact E|].
    right; left. exists id, p. eexists.
    split; [reflexivity|]. split; [exact Hp|]. split; [exact E|].
    split; [reflexivity|]. split; [left; reflexivity|]. split.
    { right; left. exists caller, text, review, cs.
      exists (Comment.mk (hex 24 (Z.of_nat (oid w)) "") caller
                         (in_body text) (in_body review)
                         (User.name u) (User.avatar u)).
      split; [reflexivity|]. split; [reflexivity|].
      split; [exact Hcs|reflexivity]. }
    left; split; reflexivity.
  - destruct (delete_comment_effect w id comment_id caller)
      as [[_ E]|(_ & p & cs & c & Hp & Hcs & Hin & Hid & Hu & E)];
      [left; exact E|].
    right; left. exists id, p. eexists.
    split; [reflexivity|]. split; [exact Hp|]. split; [exact E|].
    split; [reflexivity|]. split; [left; reflexivity|]. split.
    { right; right. exists comment_id, caller, cs, c.
      split; [reflexivity|]. split; [exact Hin|]. split; [exact Hid|].
      split; [exact Hu|]. split; [exact Hcs|reflexivity]. }
    left; split; reflexivity.
Qed.

End HandleEffect.

(* ------------------------------------------------------------------ *)
(** * Properties of the router as a whole *)

Section Router.

Variable sort : JS.value -> JS.value -> list Coffee.t -> list Coffee.t.

(** A property of every stored record survives a save of a record that
    has it. *)
Lemma Forall_saved (P : Coffee.t -> Prop) (doc : Coffee.t) (l : list Coffee.t) :
  Forall P l -> P doc -> Forall P (saved doc l).
Proof.
  intros Hl Hd. unfold saved. apply Forall_map.
  apply Forall_impl with (P := P); [|exact Hl].
  intros d Hp. now destruct (String.eqb _ _).
Qed.

Lemma likes_unique_step (r : Request) (w : World) :
  likes_unique (coffees w) ->
  likes_unique (coffees (snd (handle sort r w))).
Proof.
  intros H. unfold likes_unique in *.
  destruct (handle_effect sort r w)
    as [E|[(id & p & p' & _ & Hp & E & _ & Hl & _)
          |[(id & p & _ & _ & _ & E)
           |(doc & c & t & a & s & n & _ & _ & Hl & _ & E)]]];
    rewrite E; clear E.
  - exact H.
  - apply Forall_saved; [exact H|].
    assert (Pp : NoDup (map Like.user (Coffee.likes p))).
    { apply lookup_in in Hp. rewrite Forall_forall in H. now apply H. }
    destruct Hl as [E|[(u & _ & Hn & E)|(u & l1 & x & l2 & _ & _ & Hl & E)]];
      rewrite E.
    + exact Pp.
    + simpl. now constructor.
    + rewrite Hl, map_app in Pp. simpl in Pp.
      rewrite map_app. now apply NoDup_remove_1 in Pp.
  - unfold removed. apply Forall_forall. intros d Hd.
    apply filter_In in Hd. rewrite Forall_forall in H. now apply H.
  - apply Forall_app. split; [exact H|].
    constructor; [|constructor]. rewrite Hl. constructor.
Qed.

End Router.

(** X1: a request that is not answered 200 leaves every stored record as
    it was, whatever the route, the input and the answers of the store. *)
Theorem refused_request_changes_no_record
  (sort : JS.value -> JS.value -> list Coffee.t -> list Coffee.t)
  (r : Request) (w : World) :
  status (fst (handle sort r w)) <> 200 ->
  coffees (snd (handle sort r w)) = coffees w.
Proof.
  intros H. destruct r; simpl in *.
  - destruct (post_root_effect w caller text address suburb name)
      as [[_ E]|(u & _ & _ & _ & R & _)]; [exact E|].
    rewrite R in H. simpl in H. congruence.
  - apply get_root_effect.
  - destruct (get_id_effect w id) as [[_ E]|[S _]]; [exact E|congruence].
  - destruct (delete_id_effect w id caller) as [[_ E]|[S _]];
      [exact E|congruence].
  - destruct (put_like_changes w id caller) as [[_ E]|[S _]];
      [exact E|congruence].
  - destruct (put_unlike_changes w id caller) as [[_ E]|[S _]];
      [exact E|congruence].
  - destruct (post_comment_effect w id caller text review) as [[_ E]|[S _]];
      [exact E|congruence].
  - destruct (delete_comment_effect w id comment_id caller) as [[_ E]|[S _]];
      [exact E|congruence].
Qed.

Lemma refused_request_changes_no_record_witness :
  let w := Sample.world [Sample.shop [] []] in
  coffees (snd (handle (fun _ _ docs => docs)
                  (DELETE_id Sample.shop_id Sample.bob) w))
  = coffees w.
Proof.
  intros w.
  apply (refused_request_changes_no_record (fun _ _ docs => docs)
           (DELETE_id Sample.shop_id Sample.bob) w).
  vm_compute. discriminate.
Defined.

(** X2: if no stored record holds a user twice in its likes, none does
    after any sequence of requests to any of the routes, by any users, on
    any records, whatever the store answers. *)
Theorem likes_stay_unique
  (sort : JS.value -> JS.value -> list Coffee.t -> list Coffee.t)
  (rs : list Request) (w : World) :
  likes_unique (coffees w) -> likes_unique (coffees (serve sort rs w)).
Proof.
  revert w. induction rs as [|r rs IH]; intros w H; simpl; [exact H|].
  apply IH, likes_unique_step, H.
Qed.

Lemma likes_stay_unique_witness :
  let w := Sample.world [Sample.shop [Like.mk Sample.ann] []] in
  likes_unique
    (coffees (serve (fun _ _ docs => docs)
                [PUT_like Sample.shop_id Sample.bob;
                 PUT_like Sample.shop_id Sample.ann;
                 POST_root Sample.bob (body_only (JS.str "Cafe"))
                           (JS.str "2 Low St") (JS.str "Fitzroy") (JS.str "B");
                 PUT_unlike Sample.shop_id Sample.ann;
                 PUT_like Sample.shop_id Sample.bob] w)).
Proof.
  intros w. apply likes_stay_unique.
  unfold likes_unique. simpl. repeat constructor. simpl. tauto.
Defined.

(** X3: a stored record is left as it is by every request that is not
    addressed to it: by a request on another record, by the creation of a
    record and by a listing. *)
Theorem other_records_are_untouched
  (sort : JS.value -> JS.value -> list Coffee.t -> list Coffee.t)
  (r : Request) (w : World) (id : string) (p : Coffee.t) :
  lookup id (coffees w) = Some p -> target r <> Some id ->
  lookup id (coffees (snd (handle sort r w))) = Some p.
Proof.
  intros Hp Ht.
  destruct (handle_effect sort r w)
    as [E|[(id0 & p0 & p' & T & Hp0 & E & Hf & _)
          |[(id0 & p0 & R & _ & _ & E)
           |(doc & c & t & a & s & n & _ & _ & _ & _ & E)]]];
    rewrite E; clear E.
  - exact Hp.
  - rewrite lookup_saved_other; [exact Hp|].
    apply lookup_id in Hp0. unfold fixed in Hf.
    assert (Coffee._id p' = id0) by congruence.
    intros F. apply Ht. congruence.
  - rewrite lookup_removed_other; [exact Hp|].
    intros F. apply Ht. subst r. simpl. congruence.
  - now apply lookup_inserted_old.
Qed.

Lemma other_records_are_untouched_witness :
  let other := Coffee.mk "5d7a514b5d2c12c7449be099" Sample.bob
                         (JS.str "Other") (JS.str "O") (JS.str "9 Side St")
                         (JS.str "Kew") "o.png" [] (Some [])
                         (JS.number JS.zero) (JS.number JS.zero) in
  let w := Sample.world [Sample.shop [] []; other] in
  lookup "5d7a514b5d2c12c7449be099"
    (coffees (snd (handle (fun _ _ docs => docs)
                     (DELETE_id Sample.shop_id Sample.ann) w)))
  = Some other.
Proof.
  intros other w.
  apply (other_records_are_untouched (fun _ _ docs => docs)
           (DELETE_id Sample.shop_id Sample.ann) w).
  - reflexivity.
  - simpl. discriminate.
Defined.

(** X4: no request changes the identifier, the owner, the text, the name,
    the address, the suburb or the avatar of a stored record; and a stored
    record is gone after a request only if the request is a DELETE of it,
    under a well-formed identifier, by its owner. *)
Theorem owner_and_description_are_fixed
  (sort : JS.value -> JS.value -> list Coffee.t -> list Coffee.t)
  (r : Request) (w : World) (id : string) (p : Coffee.t) :
  lookup id (coffees w) = Some p ->
  (exists p', lookup id (coffees (snd (handle sort r w))) = Some p'
              /\ fixed p' = fixed p)
  \/ (lookup id (coffees (snd (handle sort r w))) = None
      /\ r = DELETE_id id (Coffee.user p)
      /\ JS.matches_hex24 id = true).
Proof.
  intros Hp.
  destruct (handle_effect sort r w)
    as [E|[(id0 & p0 & p' & T & Hp0 & E & Hf & _)
          |[(id0 & p0 & R & Hx & Hp0 & E)
           |(doc & c & t & a & s & n & _ & _ & _ & _ & E)]]];
    rewrite E; clear E.
  - left. exists p. split; [exact Hp|reflexivity].
  - left.
    assert (Hid : Coffee._id p' = id0).
    { apply lookup_id in Hp0. unfold fixed in Hf. congruence. }
    destruct (string_dec id id0) as [->|Hn].
    + assert (p0 = p) by congruence. subst p0.
      exists p'. split; [|exact Hf].
      rewrite <- Hid. apply lookup_saved_same with (p := p).
      now rewrite Hid.
    + exists p. split; [|reflexivity].
      rewrite lookup_saved_other; [exact Hp|congruence].
  - destruct (string_dec id id0) as [->|Hn].
    + right. assert (p0 = p) by congruence. subst p0.
      split; [apply lookup_removed_same|]. split; assumption.
    + left. exists p. split; [|reflexivity].
      now rewrite lookup_removed_other.
  - left. exists p. split; [|reflexivity]. now apply lookup_inserted_old.
Qed.

Lemma owner_and_description_are_fixed_witness :
  let p := Sample.shop [] [Sample.comment "c1" Sample.ann "4"] in
  exists p',
    lookup Sample.shop_id
      (coffees (snd (handle (fun _ _ docs => docs)
                       (GET_id Sample.shop_id) (Sample.world [p]))))
    = Some p'
    /\ Coffee.user p' = Sample.ann.
Proof.
  intros p.
  destruct (owner_and_description_are_fixed (fun _ _ docs => docs)
              (GET_id Sample.shop_id) (Sample.world [p]) Sample.shop_id p
              eq_refl) as [(p' & L & F)|(_ & R & _)].
  - exists p'. split; [exact L|]. unfold fixed in F. simpl in F.
    now inversion F.
  - discriminate R.
Defined.

(** Where the images under [f] are distinct, two elements of the same
    image are the same element. *)
Lemma NoDup_map_same {A B} (f : A -> B) (l : list A) (a b : A) :
  NoDup (map f l) -> In a l -> In b l -> f a = f b -> a = b.
Proof.
  induction l as [|x l IH]; simpl; [tauto|].
  intros Hd Ha Hb E. inversion Hd as [|y ys Hn Hd']; subst.
  destruct Ha as [->|Ha], Hb as [->|Hb]; auto.
  - exfalso. apply Hn. rewrite E. now apply in_map.
  - exfalso. apply Hn. rewrite <- E. now apply in_map.
Qed.

(** X5: comments are never edited. Over any request, every comment of a
    stored record (whose comments carry distinct identifiers) that the
    record still is stored with is unchanged; a comment that is new was
    posted to the record by this request, and its author is the caller; a
    comment that is gone was deleted by this request, made by its author. *)
Theorem comments_change_by_their_author_only
  (sort : JS.value -> JS.value -> list Coffee.t -> list Coffee.t)
  (r : Request) (w : World) (id : string) (p p' : Coffee.t)
  (cs : list Comment.t) :
  lookup id (coffees w) = Some p -> Coffee.comments p = Some cs ->
  NoDup (map Comment.id cs) ->
  lookup id (coffees (snd (handle sort r w))) = Some p' ->
  exists cs',
    Coffee.comments p' = Some cs'
    /\ (forall c, In c cs' ->
                  In c cs
                  \/ exists text review,
                       r = POST_comment id (Comment.user c) text review)
    /\ (forall c, In c cs ->
                  In c cs'
                  \/ r = DELETE_comment id (Comment.id c) (Comment.user c)).
Proof.
  intros Hp Hcs Hd Hp'.
  assert (Same : p' = p ->
                 exists cs',
                   Coffee.comments p' = Some cs'
                   /\ (forall c, In c cs' ->
                         In c cs
                         \/ exists text review,
                              r = POST_comment id (Comment.user c) text review)
                   /\ (forall c, In c cs ->
                         In c cs'
                         \/ r = DELETE_comment id (Comment.id c)
                                               (Comment.user c))).
  { intros ->. exists cs. repeat split; auto. }
  destruct (handle_effect sort r w)
    as [E|[(id0 & p0 & q & T & Hp0 & E & Hf & _ & Hc & _)
          |[(id0 & p0 & R & _ & Hp0 & E)
           |(doc & c & t & a & s & n & _ & _ & _ & _ & E)]]];
    rewrite E in Hp'; clear E.
  - apply Same. congruence.
  - assert (Hid : Coffee._id q = id0).
    { apply lookup_id in Hp0. unfold fixed in Hf. congruence. }
    destruct (string_dec id id0) as [->|Hn].
    2:{ apply Same. rewrite lookup_saved_other in Hp'; congruence. }
    assert (p0 = p) by congruence. subst p0.
    rewrite <- Hid in Hp'.
    rewrite (lookup_saved_same _ q p) in Hp' by (now rewrite Hid).
    assert (q = p') by congruence. subst q. clear Hp'.
    destruct Hc as [E|[(caller & text & review & cs0 & c & R & Hu & H0 & H1)
                      |(cid & caller & cs0 & c & R & Hin & Hi & Hu & H0 & H1)]].
    + exists cs. rewrite E. repeat split; auto.
    + assert (cs0 = cs) by congruence. subst cs0.
      exists (c :: cs). split; [exact H1|]. split.
      * intros c' [<-|Hin]; [right|left; exact Hin].
        exists text, review. now rewrite Hu.
      * intros c' Hin. left. now right.
    + assert (cs0 = cs) by congruence. subst cs0.
      eexists. split; [exact H1|]. split.
      * intros c' Hin'. left. now apply filter_In in Hin'.
      * intros c' Hin'.
        destruct (String.eqb (Comment.id c') cid) eqn:Q.
        -- right. apply String.eqb_eq in Q.
           assert (c' = c).
           { apply (NoDup_map_same Comment.id cs); auto. congruence. }
           subst c'. now rewrite Hi, Hu.
        -- left. apply filter_In. split; [exact Hin'|]. now rewrite Q.
  - destruct (string_dec id id0) as [->|Hn].
    + rewrite lookup_removed_same in Hp'. discriminate.
    + apply Same. rewrite lookup_removed_other in Hp'; congruence.
  - apply Same. rewrite (lookup_inserted_old _ _ _ _ Hp) in Hp'. congruence.
Qed.

Lemma comments_change_by_their_author_only_witness :
  let c1 := Sample.comment "c1" Sample.ann "4" in
  let c2 := Sample.comment "c2" Sample.bob "5" in
  let r := DELETE_comment Sample.shop_id "c2" Sample.ann in
  let w := Sample.world [Sample.shop [] [c1; c2]] in
  exists cs',
    Coffee.comments (Sample.shop [] [c1; c2]) = Some cs'
    /\ forall c, In c [c1; c2] ->
         In c cs' \/ r = DELETE_comment Sample.shop_id (Comment.id c)
                                        (Comment.user c).
Proof.
  intros c1 c2 r w.
  assert (Hd : NoDup (map Comment.id [c1; c2])).
  { simpl. repeat constructor; simpl; intuition discriminate. }
  destruct (comments_change_by_their_author_only (fun _ _ docs => docs)
              r w Sample.shop_id _ (Sample.shop [] [c1; c2]) [c1; c2]
              eq_refl eq_refl Hd eq_refl) as (cs' & E & _ & H).
  exists cs'. split; assumption.
Defined.

(** X6: every route writes its own part of a record only. A record that
    is stored before and after a request has the same derived fields
    unless the request is a GET of it (the comment routes do not refresh
    them), the same likes unless the request is a like or unlike of it,
    and the same comments unless the request posts or deletes a comment of
    it. *)
Theorem routes_write_their_own_part
  (sort : JS.value -> JS.value -> list Coffee.t -> list Coffee.t)
  (r : Request) (w : World) (id : string) (p p' : Coffee.t) :
  lookup id (coffees w) = Some p ->
  lookup id (coffees (snd (handle sort r w))) = Some p' ->
  (r <> GET_id id ->
   Coffee.averageReview p' = Coffee.averageReview p
   /\ Coffee.totalReview p' = Coffee.totalReview p)
  /\ ((forall u, r <> PUT_like id u) -> (forall u, r <> PUT_unlike id u) ->
      Coffee.likes p' = Coffee.likes p)
  /\ ((forall caller text review, r <> POST_comment id caller text review) ->
      (forall cid caller, r <> DELETE_comment id cid caller) ->
      Coffee.comments p' = Coffee.comments p).
Proof.
  intros Hp Hp'.
  assert (Same : p' = p ->
                 (r <> GET_id id ->
                  Coffee.averageReview p' = Coffee.averageReview p
                  /\ Coffee.totalReview p' = Coffee.totalReview p)
                 /\ ((forall u, r <> PUT_like id u) ->
                     (forall u, r <> PUT_unlike id u) ->
                     Coffee.likes p' = Coffee.likes p)
                 /\ ((forall caller text review,
                         r <> POST_comment id caller text review) ->
                     (forall cid caller, r <> DELETE_comment id cid caller) ->
                     Coffee.comments p' = Coffee.comments p)).
  { intros ->. repeat split; reflexivity. }
  destruct (handle_effect sort r w)
    as [E|[(id0 & p0 & q & T & Hp0 & E & Hf & Hl & Hc & Ha)
          |[(id0 & p0 & R & _ & Hp0 & E)
           |(doc & c & t & a & s & n & _ & _ & _ & _ & E)]]];
    rewrite E in Hp'; clear E.
  - apply Same. congruence.
  - assert (Hid : Coffee._id q = id0).
    { apply lookup_id in Hp0. unfold fixed in Hf. congruence. }
    destruct (string_dec id id0) as [->|Hn].
    2:{ apply Same. rewrite lookup_saved_other in Hp'; congruence. }
    assert (p0 = p) by congruence. subst p0.
    rewrite <- Hid in Hp'.
    rewrite (lookup_saved_same _ q p) in Hp' by (now rewrite Hid).
    assert (q = p') by congruence. subst q. clear Hp'.
    split; [|split].
    + intros Hr. destruct Ha as [Ha|Ha]; [exact Ha|contradiction].
    + intros H1 H2.
      destruct Hl as [E|[(u & R & _)|(u & l1 & x & l2 & R & _)]];
        [exact E| |]; exfalso; [apply (H1 u)|apply (H2 u)]; exact R.
    + intros H1 H2.
      destruct Hc as [E|[(caller & text & review & cs0 & c & R & _)
                        |(cid & caller & cs0 & c & R & _)]];
        [exact E| |]; exfalso;
        [apply (H1 caller text review)|apply (H2 cid caller)]; exact R.
  - destruct (string_dec id id0) as [->|Hn].
    + rewrite lookup_removed_same in Hp'. discriminate.
    + apply Same. rewrite lookup_removed_other in Hp'; congruence.
  - apply Same. rewrite (lookup_inserted_old _ _ _ _ Hp) in Hp'. congruence.
Qed.

Lemma routes_write_their_own_part_witness :
  let p := Sample.shop [] [] in
  let r := POST_comment Sample.shop_id Sample.bob (body_only (JS.str "nice"))
                        (body_only (JS.str "5")) in
  exists p',
    lookup Sample.shop_id
      (coffees (snd (handle (fun _ _ docs => docs) r (Sample.world [p]))))
    = Some p'
    /\ Coffee.totalReview p' = JS.number JS.zero
    /\ exists c, Coffee.comments p' = Some [c].
Proof.
  intros p r. eexists. split; [reflexivity|]. split.
  - destruct (routes_write_their_own_part (fun _ _ docs => docs) r
                (Sample.world [p]) Sample.shop_id p _ eq_refl eq_refl)
      as [H _].
    destruct H as [_ T]; [discriminate|]. exact T.
  - eexists. reflexivity.
Defined.

(** X7: the statuses of each route. The listing answers 200 or 500; GET
    /:id 200, 404 or 500; the creation, like, unlike and comment routes
    200, 400 or 500; the two DELETE routes 200, 401, 404 or 500. *)
Theorem statuses_of_the_routes
  (sort : JS.value -> JS.value -> list Coffee.t -> list Coffee.t)
  (r : Request) (w : World) :
  In (status (fst (handle sort r w))) (statuses r).
Proof.
  destruct r; simpl;
    [ unfold router.post_root; destruct (not_isEmpty _); simpl; [|tauto]
    | unfold router.get_root
    | unfold router.get_id
    | unfold router.delete_id
    | unfold router.put_like
    | unfold router.put_unlike
    | unfold router.post_comment;
      destruct (not_isEmpty text), (not_isEmpty review); simpl; try tauto
    | unfold router.delete_comment ];
    run_handler;
    destruct (faults w) as [|[|] [|[|] [|[|] fs]]]; simpl; try tauto;
    repeat match goal with
           | |- context [match ?x with _ => _ end] =>
               match x with
               | context [match _ with _ => _ end] => fail 1
               | _ => destruct x; simpl
               end
           end;
    tauto.
Qed.

Lemma answered_without_faults (n : nat) (w : World) :
  faults w = [] -> accepted n w = true /\ rejects w = false.
Proof.
  intros H. unfold accepted, rejects. rewrite H. now destruct n.
Qed.

(** X8: with a store that answers, a like by a user who is not in the
    likes followed by an unlike by that user gives the record back as it
    was: both are answered 200, the first with the user put first, the
    second with the likes as they were. *)
Theorem like_then_unlike_restores_the_record
  (id u : string) (w : World) (p : Coffee.t) :
  faults w = [] -> lookup id (coffees w) = Some p ->
  ~ In u (map Like.user (Coffee.likes p)) ->
  let w1 := snd (router.put_like id u w) in
  fst (router.put_like id u w) = json 200 (Likes (Like.mk u :: Coffee.likes p))
  /\ fst (router.put_unlike id u w1) = json 200 (Likes (Coffee.likes p))
  /\ lookup id (coffees (snd (router.put_unlike id u w1))) = Some p.
Proof.
  intros Hf Hp Hn w1.
  destruct (put_like_prepends id u w p Hp
              (proj1 (answered_without_faults 2 w Hf)) Hn) as [R1 S1].
  assert (Hf1 : faults w1 = [])
    by exact (answering_store (fun _ _ docs => docs) (PUT_like id u) w Hf).
  fold w1 in S1.
  destruct (put_unlike_removes id u w1 _ S1 [] (Coffee.likes p) (Like.mk u)
              (proj1 (answered_without_faults 2 w1 Hf1))
              eq_refl eq_refl (fun F => F)) as [R2 S2].
  split; [exact R1|]. split; [exact R2|].
  rewrite S2. now destruct p.
Qed.

Lemma like_then_unlike_restores_the_record_witness :
  let p := Sample.shop [Like.mk Sample.ann] [] in
  let w := Sample.world [p] in
  lookup Sample.shop_id
    (coffees (snd (router.put_unlike Sample.shop_id Sample.bob
                     (snd (router.put_like Sample.shop_id Sample.bob w)))))
  = Some p.
Proof.
  intros p w.
  apply (like_then_unlike_restores_the_record Sample.shop_id Sample.bob w p).
  - reflexivity.
  - reflexivity.
  - simpl. intros [E|[]]. discriminate E.
Defined.

(** X9: with a store that answers, whenever a comment posted to a record
    is answered 200, its deletion by its author under the identifier it
    was given leaves the record as it was before the post, provided no
    comment of the record had that identifier: the deletion is answered
    200 with the comments as they were. *)
Theorem comment_then_delete_restores_the_record
  (id caller : string) (text review : Located) (w : World)
  (p : Coffee.t) (cs : list Comment.t) :
  faults w = [] ->
  lookup id (coffees w) = Some p -> Coffee.comments p = Some cs ->
  status (fst (router.post_comment id caller text review w)) = 200 ->
  let cid := hex 24 (Z.of_nat (oid w)) "" in
  ~ In cid (map Comment.id cs) ->
  let w1 := snd (router.post_comment id caller text review w) in
  fst (router.delete_comment id cid caller w1) = json 200 (Comments cs)
  /\ lookup id (coffees (snd (router.delete_comment id cid caller w1)))
     = Some p.
Proof.
  intros Hf Hp Hcs Hok cid Hn w1.
  destruct (post_comment_effect w id caller text review)
    as [[Hno _]|(_ & p0 & cs0 & u & Hp0 & Hcs0 & Hu & E)]; [contradiction|].
  assert (p0 = p) by congruence. subst p0.
  assert (cs0 = cs) by congruence. subst cs0.
  fold w1 in E. fold cid in E.
  set (new := Comment.mk cid caller (in_body text) (in_body review)
                         (User.name u) (User.avatar u)) in E.
  assert (S1 : lookup id (coffees w1)
               = Some (Coffee.set_comments p (new :: cs))).
  { rewrite E. rewrite <- (lookup_id _ _ _ Hp) at 1.
    apply (lookup_saved_same (coffees w) (Coffee.set_comments p (new :: cs)) p).
    simpl. now rewrite (lookup_id _ _ _ Hp). }
  assert (Hf1 : faults w1 = [])
    by exact (answering_store (fun _ _ docs => docs)
                (POST_comment id caller text review) w Hf).
  assert (Hnew : Comment.id new = cid /\ Comment.user new = caller)
    by (split; reflexivity).
  destruct Hnew as [Hi Hc]. clearbody w1 cid new.
  unfold router.delete_comment. run_handler.
  rewrite Hf1. simpl. rewrite S1. simpl.
  repeat (progress (rewrite ?Hi, ?Hc, ?String.eqb_refl; simpl)).
  rewrite (filter_others cid cs Hn).
  split; [reflexivity|].
  rewrite (lookup_id _ _ _ Hp).
  rewrite (lookup_saved id (coffees w1) _
             (Coffee.set_comments (Coffee.set_comments p (new :: cs)) cs)
             S1 (lookup_id _ _ _ Hp)).
  destruct p. simpl in Hcs. now rewrite Hcs.
Qed.

Lemma comment_then_delete_restores_the_record_witness :
  let p := Sample.shop [] [Sample.comment "c1" Sample.ann "4"] in
  let w := Sample.world [p] in
  let w1 := snd (router.post_comment Sample.shop_id Sample.bob
                   (body_only (JS.str "nice")) (body_only (JS.str "5")) w) in
  fst (router.delete_comment Sample.shop_id "000000000000000000000000"
         Sample.bob w1)
  = json 200 (Comments [Sample.comment "c1" Sample.ann "4"]).
Proof.
  intros p w w1.
  apply (comment_then_delete_restores_the_record Sample.shop_id Sample.bob
           (body_only (JS.str "nice")) (body_only (JS.str "5")) w
           p [Sample.comment "c1" Sample.ann "4"]);
    try reflexivity.
  simpl. intros [E|[]]. discriminate E.
Defined.

Section Average.

Lemma add_NaN (x : JS.num) : JS.add x JS.NaN = JS.NaN /\ JS.add JS.NaN x = JS.NaN.
Proof. split; [now destruct x|reflexivity]. Qed.

Lemma sum_from_NaN (cs : list Comment.t) :
  JS.reduce (fun comment currentValue =>
               JS.add comment (JS.Number (Comment.review currentValue)))
            JS.NaN cs = JS.NaN.
Proof.
  unfold JS.reduce. induction cs as [|c cs IH]; simpl; [reflexivity|].
  rewrite (proj2 (add_NaN _)). exact IH.
Qed.

(** One review that is no number makes the sum NaN. *)
Lemma sum_with_a_bad_review (cs : list Comment.t) (x : Comment.t) :
  In x cs -> JS.is_NaN (JS.Number (Comment.review x)) = true ->
  totalReviewNumber cs = JS.NaN.
Proof.
  intros Hin Hx. unfold totalReviewNumber, JS.reduce.
  generalize JS.zero as acc.
  induction cs as [|c cs IH]; simpl; [destruct Hin|]. intros acc.
  destruct Hin as [->|Hin]; [|now apply IH].
  destruct (JS.Number (Comment.review x)); try discriminate Hx.
  change S754_nan with JS.NaN.
  rewrite (proj1 (add_NaN acc)). apply sum_from_NaN.
Qed.

End Average.

(** X10: one review that does not parse as a number spoils the average
    of the record: whenever GET /:id of a record with such a comment is
    answered 200, the record saved and sent has the average "NaN",
    whatever the other reviews are. *)
Theorem one_bad_review_makes_the_average_NaN
  (id : string) (w : World) (c : Coffee.t) (cs : list Comment.t)
  (x : Comment.t) :
  lookup id (coffees w) = Some c -> Coffee.comments c = Some cs ->
  In x cs -> JS.is_NaN (JS.Number (Comment.review x)) = true ->
  status (fst (router.get_id id w)) = 200 ->
  exists c',
    fst (router.get_id id w) = json 200 (Doc c')
    /\ lookup id (coffees (snd (router.get_id id w))) = Some c'
    /\ Coffee.averageReview c' = JS.str "NaN".
Proof.
  intros Hc Hcs Hin Hx Hok. destruct (get_id_success id w Hok) as [Hid Ha].
  destruct (get_id_refreshes id w c cs Hc Hcs Hid Ha) as [R S].
  exists (refreshed c cs). split; [exact R|]. split; [exact S|].
  unfold refreshed. simpl. unfold averageReview.
  now rewrite (sum_with_a_bad_review cs x Hin Hx).
Qed.

Lemma one_bad_review_makes_the_average_NaN_witness :
  let cs := [Sample.comment "c1" Sample.ann "4";
             Sample.comment "c2" Sample.bob "abc";
             Sample.comment "c3" Sample.ann "5"] in
  exists c',
    fst (router.get_id Sample.shop_id (Sample.world [Sample.shop [] cs]))
    = json 200 (Doc c')
    /\ Coffee.averageReview c' = JS.str "NaN".
Proof.
  intros cs.
  destruct (one_bad_review_makes_the_average_NaN Sample.shop_id
              (Sample.world [Sample.shop [] cs]) (Sample.shop [] cs) cs
              (Sample.comment "c2" Sample.bob "abc") eq_refl eq_refl)
    as (c' & R & _ & A).
  - simpl. auto.
  - reflexivity.
  - reflexivity.
  - exists c'. split; assumption.
Defined.

(** X11: with a store that answers, a second GET /:id of a record is
    answered as the first was and leaves the stored record as the first
    left it: the derived fields depend on the comments alone. *)
Theorem get_twice_is_get_once
  (id : string) (w : World) (c : Coffee.t) (cs : list Comment.t) :
  faults w = [] -> lookup id (coffees w) = Some c ->
  Coffee.comments c = Some cs -> JS.matches_hex24 id = true ->
  let w1 := snd (router.get_id id w) in
  fst (router.get_id id w1) = fst (router.get_id id w)
  /\ lookup id (coffees (snd (router.get_id id w1))) = lookup id (coffees w1).
Proof.
  intros Hf Hc Hcs Hid w1.
  destruct (get_id_refreshes id w c cs Hc Hcs Hid
              (proj1 (answered_without_faults 2 w Hf))) as [R S].
  fold w1 in S.
  assert (Hf1 : faults w1 = [])
    by exact (answering_store (fun _ _ docs => docs) (GET_id id) w Hf).
  destruct (get_id_refreshes id w1 (refreshed c cs) cs S Hcs Hid
              (proj1 (answered_without_faults 2 w1 Hf1))) as [R1 S1].
  rewrite R, R1, S1, S. split; reflexivity.
Qed.

Lemma get_twice_is_get_once_witness :
  let w := Sample.world [Sample.shop [] [Sample.comment "c1" Sample.ann "4"]] in
  fst (router.get_id Sample.shop_id (snd (router.get_id Sample.shop_id w)))
  = fst (router.get_id Sample.shop_id w).
Proof.
  intros w.
  apply (get_twice_is_get_once Sample.shop_id w
           (Sample.shop [] [Sample.comment "c1" Sample.ann "4"])
           [Sample.comment "c1" Sample.ann "4"]); reflexivity.
Defined.

(** X12: POST / is answered 400, without a call to the store and
    without changing anything, exactly when the validator of the text
    fails: when the text has a value in none of the places the validator
    reads, or an empty one in one of them. Whenever it is answered 200, the
    record it sends is the one then stored under its identifier; its owner
    is the caller, its text, name, address and suburb are those of the
    body, also where the body has none and the validator passed on the
    text of another place, and its avatar is the one in the caller's
    profile. *)
Theorem creation_makes_the_caller_the_owner
  (caller : string) (text : Located) (address suburb name : JS.value)
  (w : World) :
  let r := router.post_root caller text address suburb name w in
  (not_isEmpty text = false -> r = (json 400 (Errors ["text"]), w))
  /\ (not_isEmpty text = true -> status (fst r) <> 400)
  /\ (status (fst r) = 200 ->
      exists u doc,
        find (fun x => String.eqb (User._id x) caller) (users w) = Some u
        /\ fst r = json 200 (Doc doc)
        /\ fixed doc = (Coffee._id doc, caller, in_body text, name, address,
                        suburb, User.avatar u)
        /\ lookup (Coffee._id doc) (coffees (snd r)) = Some doc).
Proof.
  intros r. split; [|split].
  - intros Ht. subst r. unfold router.post_root. now rewrite Ht.
  - intros Ht. subst r. unfold router.post_root. rewrite Ht. simpl.
    run_handler.
    destruct (faults w) as [|[|] [|[|] fs]]; simpl; try discriminate;
      repeat match goal with
             | |- context [match ?x with _ => _ end] =>
                 match x with
                 | context [match _ with _ => _ end] => fail 1
                 | _ => destruct x; simpl
                 end
             end;
      discriminate.
  - intros Hok. subst r.
    destruct (post_root_effect w caller text address suburb name)
      as [[Hn _]|(u & Hu & Ht & Hnew & R & E)]; [contradiction|].
    exists u. eexists. split; [exact Hu|]. split; [exact R|].
    split; [reflexivity|].
    rewrite E. now apply lookup_inserted_new.
Qed.

Lemma creation_makes_the_caller_the_owner_witness :
  let w := Sample.world [Sample.shop [] []] in
  fst (router.post_root Sample.bob (body_only (JS.str "")) (JS.str "2 Low St")
         (JS.str "Fitzroy") (JS.str "B") w)
  = json 400 (Errors ["text"])
  /\ (exists doc,
         fst (router.post_root Sample.bob (body_only (JS.str "Cafe"))
                (JS.str "2 Low St") (JS.str "Fitzroy") (JS.str "B") w)
         = json 200 (Doc doc)
         /\ Coffee.user doc = Sample.bob /\ Coffee.avatar doc = "bob.png")
  /\ (exists doc,
         fst (router.post_root Sample.bob
                (located JS.undefined JS.undefined JS.undefined JS.undefined
                         (JS.str "Cafe"))
                JS.undefined JS.undefined JS.undefined w)
         = json 200 (Doc doc)
         /\ Coffee.text doc = JS.undefined).
Proof.
  intros w. split; [|split].
  - destruct (creation_makes_the_caller_the_owner Sample.bob
                (body_only (JS.str "")) (JS.str "2 Low St") (JS.str "Fitzroy")
                (JS.str "B") w) as [H _].
    rewrite (H eq_refl). reflexivity.
  - destruct (creation_makes_the_caller_the_owner Sample.bob
                (body_only (JS.str "Cafe")) (JS.str "2 Low St")
                (JS.str "Fitzroy") (JS.str "B") w) as (_ & _ & H).
    destruct (H eq_refl) as (u & doc & Hu & R & F & _).
    exists doc. split; [exact R|].
    simpl in Hu. inversion Hu. subst u.
    unfold fixed in F. inversion F. split; reflexivity.
  - destruct (creation_makes_the_caller_the_owner Sample.bob
                (located JS.undefined JS.undefined JS.undefined JS.undefined
                         (JS.str "Cafe"))
                JS.undefined JS.undefined JS.undefined w) as (_ & _ & H).
    destruct (H eq_refl) as (u & doc & _ & R & F & _).
    exists doc. split; [exact R|].
    unfold fixed in F. now inversion F.
Defined.

(** X13: DELETE /:id of a stored record, with a store that answers: under
    an identifier that is not 24 hexadecimal characters it is answered 404
    although the record is there; by a user who is not the owner it is
    answered 401; both leave the records as they are. By the owner it is
    answered 200 and the record is gone: a GET of it is then answered 500
    and a second DELETE 404. *)
Theorem deletion_is_for_the_owner (id caller : string) (w : World) (p : Coffee.t) :
  faults w = [] -> lookup id (coffees w) = Some p ->
  let r := router.delete_id id caller w in
  (JS.matches_hex24 id = false ->
   fst r = json 404 (Msg "Coffee not found") /\ coffees (snd r) = coffees w)
  /\ (JS.matches_hex24 id = true -> Coffee.user p <> caller ->
      fst r = json 401 (Msg "User not authorized")
      /\ coffees (snd r) = coffees w)
  /\ (JS.matches_hex24 id = true -> Coffee.user p = caller ->
      fst r = json 200 (Msg "Coffee removed")
      /\ lookup id (coffees (snd r)) = None
      /\ fst (router.get_id id (snd r)) = ServerError
      /\ fst (router.delete_id id caller (snd r))
         = json 404 (Msg "Coffee not found")).
Proof.
  intros Hf Hp r. subst r. split; [|split].
  - intros Hid. unfold router.delete_id. run_handler.
    rewrite Hf, Hid. simpl. split; reflexivity.
  - intros Hid Hu. apply String.eqb_neq in Hu.
    unfold router.delete_id. run_handler.
    rewrite Hf, Hid, Hp. simpl. rewrite Hu. simpl. split; reflexivity.
  - intros Hid Hu. apply String.eqb_eq in Hu.
    assert (Hf1 : faults (snd (router.delete_id id caller w)) = [])
      by exact (answering_store (fun _ _ docs => docs) (DELETE_id id caller)
                  w Hf).
    assert (R : fst (router.delete_id id caller w)
                = json 200 (Msg "Coffee removed")
                /\ coffees (snd (router.delete_id id caller w))
                   = removed id (coffees w)).
    { unfold router.delete_id. run_handler.
      rewrite Hf, Hid, Hp. simpl. rewrite Hu. simpl.
      rewrite (lookup_id _ _ _ Hp). split; reflexivity. }
    destruct R as [R E].
    assert (Gone : lookup id (coffees (snd (router.delete_id id caller w)))
                   = None)
      by (rewrite E; apply lookup_removed_same).
    split; [exact R|]. split; [exact Gone|]. split.
    + now apply get_id_missing.
    + apply delete_id_missing; [exact Gone|].
      exact (proj2 (answered_without_faults 0 _ Hf1)).
Qed.

Lemma deletion_is_for_the_owner_witness :
  let w := Sample.world [Sample.shop [] []] in
  fst (router.delete_id Sample.shop_id Sample.bob w)
  = json 401 (Msg "User not authorized")
  /\ fst (router.delete_id Sample.shop_id Sample.ann w)
     = json 200 (Msg "Coffee removed")
  /\ fst (router.get_id Sample.shop_id
            (snd (router.delete_id Sample.shop_id Sample.ann w)))
     = json 500 (Send "Server Error").
Proof.
  intros w. split; [|split].
  - destruct (deletion_is_for_the_owner Sample.shop_id Sample.bob w
                (Sample.shop [] []) eq_refl eq_refl) as (_ & H & _).
    apply H; [reflexivity|discriminate].
  - destruct (deletion_is_for_the_owner Sample.shop_id Sample.ann w
                (Sample.shop [] []) eq_refl eq_refl) as (_ & _ & H).
    apply H; reflexivity.
  - destruct (deletion_is_for_the_owner Sample.shop_id Sample.ann w
                (Sample.shop [] []) eq_refl eq_refl) as (_ & _ & H).
    apply H; reflexivity.
Defined.

(* ------------------------------------------------------------------ *)
(** * Overlapping like requests *)

(** PUT /like/:id is its load followed by the rest of the handler. *)
Lemma put_like_cut (id u : string) (w : World) :
  router.put_like id u w
  = resume (like_loaded u) (fst (Coffee_findById id w))
           (snd (Coffee_findById id w)).
Proof.
  unfold router.put_like, resume, like_loaded, try_catch, bind.
  destruct (Coffee_findById id w) as [[post| |r] w1]; reflexivity.
Qed.

Section Overlap.

Variables (id a b : string) (w : World) (p : Coffee.t).
Hypothesis distinct : a <> b.
Hypothesis stored : lookup id (coffees w) = Some p.
Hypothesis new_a : ~ In a (map Like.user (Coffee.likes p)).
Hypothesis new_b : ~ In b (map Like.user (Coffee.likes p)).

Lemma not_yet_liked (u : string) :
  ~ In u (map Like.user (Coffee.likes p)) ->
  (0 <? router.likes_of u (Coffee.likes p))%nat = false.
Proof.
  intros Hn. destruct (0 <? _)%nat eqn:E; [|reflexivity].
  apply present_likes_of in E. tauto.
Qed.

(** One after the other, both likes are stored. *)
Lemma likes_in_turn :
  faults w = [] ->
  fst (router.put_like id b (snd (router.put_like id a w)))
  = json 200 (Likes (Like.mk b :: Like.mk a :: Coffee.likes p))
  /\ lookup id (coffees (snd (router.put_like id b
                                (snd (router.put_like id a w)))))
     = Some (Coffee.set_likes p (Like.mk b :: Like.mk a :: Coffee.likes p)).
Proof.
  intros Hf.
  destruct (put_like_prepends id a w p stored
              (proj1 (answered_without_faults 2 w Hf)) new_a) as [_ S1].
  assert (Hf1 : faults (snd (router.put_like id a w)) = [])
    by exact (answering_store (fun _ _ docs => docs) (PUT_like id a) w Hf).
  assert (Hb : ~ In b (map Like.user
                         (Coffee.likes
                            (Coffee.set_likes p (Like.mk a :: Coffee.likes p))))).
  { simpl. intros [E|E]; [congruence|tauto]. }
  exact (put_like_prepends id b _ _ S1
           (proj1 (answered_without_faults 2 _ Hf1)) Hb).
Qed.

(** Overlapping, the like of [a] is answered 200 and then the save of
    [b], made from the document [b] loaded, replaces what [a] saved, or is
    rejected. *)
Lemma likes_overlapping :
  accepted 3 w = true ->
  let r := overlapping_likes id a b w in
  fst (fst r) = json 200 (Likes (Like.mk a :: Coffee.likes p))
  /\ (accepted 4 w = true ->
      snd (fst r) = json 200 (Likes (Like.mk b :: Coffee.likes p))
      /\ lookup id (coffees (snd r))
         = Some (Coffee.set_likes p (Like.mk b :: Coffee.likes p)))
  /\ (accepted 4 w = false ->
      snd (fst r) = ServerError
      /\ lookup id (coffees (snd r))
         = Some (Coffee.set_likes p (Like.mk a :: Coffee.likes p))).
Proof.
  intros Ha r. subst r.
  pose proof (lookup_id _ _ _ stored) as Hid.
  assert (Sa : lookup id (saved (Coffee.set_likes p (Like.mk a :: Coffee.likes p))
                                (coffees w))
               = Some (Coffee.set_likes p (Like.mk a :: Coffee.likes p))).
  { unfold saved. simpl. rewrite Hid.
    now apply lookup_saved with (p := p). }
  assert (Sb : lookup id
                 (saved (Coffee.set_likes p (Like.mk b :: Coffee.likes p))
                    (saved (Coffee.set_likes p (Like.mk a :: Coffee.likes p))
                           (coffees w)))
               = Some (Coffee.set_likes p (Like.mk b :: Coffee.likes p))).
  { unfold saved at 1. simpl. rewrite Hid.
    now apply lookup_saved with (p := Coffee.set_likes p
                                        (Like.mk a :: Coffee.likes p)). }
  unfold overlapping_likes, resume, like_loaded.
  unfold_handler. unfold rejects, called, accepted in *. simpl in *.
  destruct (faults w) as [|[|] [|[|] [|[|] [|[|] fs]]]]; simpl in *;
    try discriminate Ha;
    rewrite stored; simpl;
    rewrite (not_yet_liked a new_a), (not_yet_liked b new_b); simpl;
    (split; [reflexivity|]);
    (split; intros H; try discriminate H; split; [reflexivity|]);
    assumption.
Qed.

End Overlap.

(** C2, on the claim as stated: two likes by distinct users that overlap.
    When the store accepts every call both are answered 200 and the record
    holds the second user alone; when it rejects the second save, as a
    store that checks versions would, the second request is answered 500
    and the record holds the first user alone. *)
Lemma overlapping_likes_lose_one :
  let w := Sample.world [Sample.shop [] []] in
  let w' := mkWorld (coffees w) (users w) [] [false; false; false; true] 0 in
  let r := overlapping_likes Sample.shop_id Sample.ann Sample.bob w in
  let r' := overlapping_likes Sample.shop_id Sample.ann Sample.bob w' in
  (fst (fst r) = json 200 (Likes [Like.mk Sample.ann])
   /\ snd (fst r) = json 200 (Likes [Like.mk Sample.bob])
   /\ lookup Sample.shop_id (coffees (snd r))
      = Some (Sample.shop [Like.mk Sample.bob] [])
   /\ liked Sample.shop_id Sample.ann (snd r) = 0%nat)
  /\ (fst (fst r') = json 200 (Likes [Like.mk Sample.ann])
      /\ snd (fst r') = json 500 (Send "Server Error")
      /\ lookup Sample.shop_id (coffees (snd r'))
         = Some (Sample.shop [Like.mk Sample.ann] [])
      /\ liked Sample.shop_id Sample.bob (snd r') = 0%nat).
Proof. vm_compute. repeat split; reflexivity. Qed.

(** C2, amended: PUT /like/:id is its load followed by its save, with no
    version check and no retry. Two likes of a record by distinct users
    who are not in its likes are both stored when one request ends before
    the other begins. When they overlap, both loading before either saves,
    the first is answered 200 and at most one of the two likes is stored:
    if the store accepts the second save, it replaces what the first
    stored, both are answered 200 and the likes hold the second user and
    not the first; if the store rejects it, the second request is answered
    500 and the likes hold the first user and not the second. *)
Theorem overlapping_likes_keep_one
  (id a b : string) (w : World) (p : Coffee.t) :
  a <> b -> lookup id (coffees w) = Some p ->
  ~ In a (map Like.user (Coffee.likes p)) ->
  ~ In b (map Like.user (Coffee.likes p)) ->
  (forall u w0,
      router.put_like id u w0
      = resume (like_loaded u) (fst (Coffee_findById id w0))
               (snd (Coffee_findById id w0)))
  /\ (faults w = [] ->
      exists q,
        lookup id (coffees (snd (router.put_like id b
                                   (snd (router.put_like id a w)))))
        = Some q
        /\ In a (map Like.user (Coffee.likes q))
        /\ In b (map Like.user (Coffee.likes q)))
  /\ (accepted 3 w = true ->
      let r := overlapping_likes id a b w in
      fst (fst r) = json 200 (Likes (Like.mk a :: Coffee.likes p))
      /\ (accepted 4 w = true ->
          snd (fst r) = json 200 (Likes (Like.mk b :: Coffee.likes p))
          /\ lookup id (coffees (snd r))
             = Some (Coffee.set_likes p (Like.mk b :: Coffee.likes p)))
      /\ (accepted 4 w = false ->
          snd (fst r) = ServerError
          /\ lookup id (coffees (snd r))
             = Some (Coffee.set_likes p (Like.mk a :: Coffee.likes p)))
      /\ (forall q, lookup id (coffees (snd r)) = Some q ->
                    ~ (In a (map Like.user (Coffee.likes q))
                       /\ In b (map Like.user (Coffee.likes q))))).
Proof.
  intros Hab Hp Ha Hb. split; [|split].
  - intros u w0. apply put_like_cut.
  - intros Hf.
    destruct (likes_in_turn id a b w p Hab Hp Ha Hb Hf) as [_ S].
    eexists. split; [exact S|]. simpl. split; auto.
  - intros Hacc r.
    destruct (likes_overlapping id a b w p Hp Ha Hb Hacc) as (Ra & Hyes & Hno).
    fold r in Ra, Hyes, Hno.
    split; [exact Ra|]. split; [exact Hyes|]. split; [exact Hno|].
    intros q Hq [Ia Ib].
    destruct (accepted 4 w) eqn:A4.
    + destruct (Hyes eq_refl) as [_ S]. rewrite S in Hq.
      inversion Hq; subst q. simpl in Ia.
      destruct Ia as [E|E]; [congruence|tauto].
    + destruct (Hno eq_refl) as [_ S]. rewrite S in Hq.
      inversion Hq; subst q. simpl in Ib.
      destruct Ib as [E|E]; [congruence|tauto].
Qed.

Lemma overlapping_likes_keep_one_witness :
  let w := Sample.world [Sample.shop [] []] in
  (exists q,
      lookup Sample.shop_id
        (coffees (snd (router.put_like Sample.shop_id Sample.bob
                         (snd (router.put_like Sample.shop_id Sample.ann w)))))
      = Some q
      /\ In Sample.ann (map Like.user (Coffee.likes q))
      /\ In Sample.bob (map Like.user (Coffee.likes q)))
  /\ lookup Sample.shop_id
       (coffees (snd (overlapping_likes Sample.shop_id Sample.ann Sample.bob w)))
     = Some (Sample.shop [Like.mk Sample.bob] []).
Proof.
  intros w.
  assert (Hab : Sample.ann <> Sample.bob) by discriminate.
  assert (Hn : forall u, ~ In u (map Like.user
                                   (Coffee.likes (Sample.shop [] []))))
    by (intros u H; exact H).
  destruct (overlapping_likes_keep_one Sample.shop_id Sample.ann Sample.bob w
              (Sample.shop [] []) Hab eq_refl (Hn _) (Hn _))
    as (_ & Hturn & Hover).
  split; [exact (Hturn eq_refl)|].
  destruct (Hover eq_refl) as (_ & Hyes & _).
  exact (proj2 (Hyes eq_refl)).
Defined.
